(** * tsi-json: the FalAI video service, its route, and the server's
    health and error handlers

    A shallow embedding of
    - [api/services/falaiService.js] (class [FalAIService]),
    - [api/routes/generateVideosFalAI.js] (the [/generate-videos-falai] route),
    - [server.js] (the [/api/health] handler and the error middleware),
    followed by the properties the specification states about them.

    Conventions of the model.
    - A JavaScript string is the list of its UTF-16 code units.
    - Request bodies, options and provider responses are JSON values,
      an object being the list of its own properties in enumeration order.
      Numbers inside JSON are kept abstract (class [JSNumber]): the code
      only tests them for truthiness and prints them.
    - The money of a batch is computed in exact rationals ([Q]), which its
      total, rounded to whole cents, is stated in. What [calculateCost]
      itself returns is also given in the code's own arithmetic, IEEE 754
      binary64 (module [binary64]).
    - [async] functions are state-passing functions over the log of
      observable events (HTTP requests sent, timers awaited); an exception
      is the [Throw] outcome.
    - The logger is taken not to fail; its arguments are still evaluated,
      because evaluating them can throw. *)

From Stdlib Require Import Ascii String QArith Qround Sorted SpecFloat.
From stdpp Require Import base strings list gmap.

Set Default Proof Using "Type".
Local Open Scope Z_scope.

(** ** JavaScript strings *)

Definition code_unit : Type := N.
Abbreviation jsstring := (list code_unit).

(** A source-code literal (ASCII text) as a JavaScript string. *)
Fixpoint lit (s : string) : jsstring :=
  match s with
  | EmptyString => []
  | String a r => N_of_ascii a :: lit r
  end.

Definition quote : jsstring := [34%N].
Definition newline : jsstring := [10%N].
Definition space : code_unit := 32%N.

(** The class [\s] of regular expressions, which is also what
    [String.prototype.trim] strips: WhiteSpace and LineTerminator. *)
Definition is_space (c : code_unit) : bool :=
  ((9 <=? c) && (c <=? 13) || (c =? 32) || (c =? 160) || (c =? 5760)
   || (8192 <=? c) && (c <=? 8202)
   || (c =? 8232) || (c =? 8233) || (c =? 8239) || (c =? 8287)
   || (c =? 12288) || (c =? 65279))%N.

Definition is_digit (c : code_unit) : bool := ((48 <=? c) && (c <=? 57))%N.

Fixpoint trimStart (s : jsstring) : jsstring :=
  match s with
  | c :: r => if is_space c then trimStart r else s
  | [] => []
  end.

Definition trimEnd (s : jsstring) : jsstring := rev (trimStart (rev s)).

Definition trim (s : jsstring) : jsstring := trimEnd (trimStart s).

(** [s.replace(/\s+/g, ' ')]: every maximal run of white space becomes one
    space. [in_run] tells that the previous code unit was white space. *)
Fixpoint replace_spaces_from (in_run : bool) (s : jsstring) : jsstring :=
  match s with
  | [] => []
  | c :: r =>
      if is_space c
      then (if in_run then replace_spaces_from true r
            else space :: replace_spaces_from true r)
      else c :: replace_spaces_from false r
  end.

Definition replace_spaces (s : jsstring) : jsstring := replace_spaces_from false s.

(** [s.substring(0, n)] *)
Definition substring0 (n : nat) (s : jsstring) : jsstring := take n s.

(** [s.substring(n)] *)
Definition substring_from (n : nat) (s : jsstring) : jsstring := drop n s.

(** [s.replace(/[^0-9]/g, '')] *)
Definition remove_non_digits (s : jsstring) : jsstring := filter (fun c => is_digit c = true) s.

Fixpoint starts_with (p s : jsstring) : bool :=
  match p, s with
  | [], _ => true
  | a :: p', b :: s' => (a =? b)%N && starts_with p' s'
  | _ :: _, [] => false
  end.

(** [s.includes(p)], case-sensitive as in JavaScript. *)
Fixpoint includes (s p : jsstring) : bool :=
  starts_with p s ||
  match s with
  | [] => false
  | _ :: r => includes r p
  end.

(** [parts.join(sep)] on an array of strings. *)
Fixpoint join (sep : jsstring) (parts : list jsstring) : jsstring :=
  match parts with
  | [] => []
  | [p] => p
  | p :: r => p ++ sep ++ join sep r
  end.

(** Decimal numerals of natural numbers, as [String(n)] prints an array
    index or an HTTP status. *)
Definition digit_unit (d : N) : code_unit := (48 + d)%N.

Fixpoint decimal_fuel (fuel : nat) (n : N) (acc : jsstring) : jsstring :=
  match fuel with
  | O => acc
  | S f =>
      let acc' := digit_unit (n `mod` 10)%N :: acc in
      if (n <? 10)%N then acc' else decimal_fuel f (n `div` 10)%N acc'
  end.

Definition decimal (n : N) : jsstring := decimal_fuel (S (N.size_nat n)) n [].

Fixpoint digit_prefix (s : jsstring) : jsstring :=
  match s with
  | c :: r => if is_digit c then c :: digit_prefix r else []
  | [] => []
  end.

Definition digit_value (c : code_unit) : Z := Z.of_N c - 48.

(** [parseInt(s)] for the strings it is given here, which are made of
    decimal digits only (no white space, sign or radix prefix to skip):
    the value of the leading digits, [None] standing for [NaN]. This is
    the mathematical integer of the numeral; the Number that JavaScript
    makes of it is [binary64.parseInt]. *)
Definition parseInt (s : jsstring) : option Z :=
  match digit_prefix s with
  | [] => None
  | ds => Some (foldl (fun acc c => 10 * acc + digit_value c) 0 ds)
  end.

(** [Math.round] *)
Definition Math_round (x : Q) : Z := Qfloor (x + (1 # 2)).

(** ** The process environment *)

(** [process.env.NAME] used as a condition: set, and not the empty string. *)
Definition env_truthy (env : gmap string string) (name : string) : bool :=
  match env !! name with
  | Some v => negb (bool_decide (v = ""%string))
  | None => false
  end.

(** ** JSON values *)

Class JSNumber (number : Type) := {
  (** the number with the given integer value *)
  number_of_nat : nat -> number;
  (** [+0], [-0] and [NaN] are the falsy numbers *)
  number_is_falsy : number -> bool;
  (** [Number.prototype.toString] *)
  number_to_string : number -> jsstring;
}.

(** ** Outcomes of evaluation *)

Inductive result (E A : Type) : Type :=
| Return (a : A)
| Throw (e : E).
Arguments Return {E A} a.
Arguments Throw {E A} e.

Definition result_bind {E A B} (r : result E A) (k : A -> result E B) : result E B :=
  match r with
  | Return a => k a
  | Throw e => Throw e
  end.

Declare Scope result_scope.
Delimit Scope result_scope with result.
Declare Scope async_scope.
Delimit Scope async_scope with async.
Notation "x <- r ;; k" := (result_bind r (fun x => k))
  (at level 100, r at next level, right associativity) : result_scope.

Set Warnings "-register-all".

Section Model.
Context {number : Type} `{JSNumber number}.

(** A JSON value, or [undefined]. [properties] lists the own properties of
    an object in enumeration order, each key once. *)
Inductive value : Type :=
| VUndef
| VNull
| VBool (b : bool)
| VNum (n : number)
| VStr (s : jsstring)
| VArr (elements : list value)
| VObj (properties : list (jsstring * value)).

(** *** Exceptions *)

(** What a [catch (error)] receives here: an [Error] made by this code, a
    [TypeError] raised by the engine (message texts are those of V8), or a
    rejection by the HTTP client, with the fields the handlers read. *)
Inductive exn : Type :=
| Error (message : jsstring)
| TypeError (message : jsstring)
| AxiosError (message : jsstring) (code : option jsstring) (request : bool)
    (response : option (N * value)).

Definition message (e : exn) : jsstring :=
  match e with
  | Error m | TypeError m | AxiosError m _ _ _ => m
  end.

Definition response (e : exn) : option (N * value) :=
  match e with
  | AxiosError _ _ _ r => r
  | _ => None
  end.

Definition code (e : exn) : option jsstring :=
  match e with
  | AxiosError _ c _ _ => c
  | _ => None
  end.

Definition request (e : exn) : bool :=
  match e with
  | AxiosError _ _ r _ => r
  | _ => false
  end.

(** *** Operators on values *)

Definition truthy (v : value) : bool :=
  match v with
  | VUndef | VNull => false
  | VBool b => b
  | VNum n => negb (number_is_falsy n)
  | VStr s => negb (bool_decide (s = []))
  | VArr _ | VObj _ => true
  end.

(** [v || d] *)
Definition or_else (v d : value) : value := if truthy v then v else d.

Fixpoint own_property (k : jsstring) (o : list (jsstring * value)) : option value :=
  match o with
  | [] => None
  | (k', v) :: r => if bool_decide (k = k') then Some v else own_property k r
  end.

(** [v?.k]. None of the property names this code reads is a built-in
    property of strings, arrays, numbers or booleans, so on those the
    read gives [undefined]. *)
Definition prop_opt (v : value) (k : string) : value :=
  match v with
  | VObj o => default VUndef (own_property (lit k) o)
  | _ => VUndef
  end.

(** [v.k] *)
Definition prop (v : value) (k : string) : result exn value :=
  match v with
  | VUndef =>
      Throw (TypeError (lit "Cannot read properties of undefined (reading '" ++ lit k ++ lit "')"))
  | VNull =>
      Throw (TypeError (lit "Cannot read properties of null (reading '" ++ lit k ++ lit "')"))
  | _ => Return (prop_opt v k)
  end.

(** ToString, as a template literal applies it. A plain object prints as
    [[object Object]] through [Object.prototype.toString]; an own property
    [toString] (never callable in JSON) hides that method and the
    conversion fails. An array prints its elements separated by commas,
    [null] and [undefined] as nothing. *)
Fixpoint to_string (v : value) : result exn jsstring :=
  match v with
  | VUndef => Return (lit "undefined")
  | VNull => Return (lit "null")
  | VBool true => Return (lit "true")
  | VBool false => Return (lit "false")
  | VNum n => Return (number_to_string n)
  | VStr s => Return s
  | VArr l =>
      (fix elements (l : list value) : result exn jsstring :=
         let element x :=
           match x with
           | VUndef | VNull => Return []
           | _ => to_string x
           end in
         match l with
         | [] => Return []
         | [x] => element x
         | x :: r =>
             (s <- element x;; t <- elements r;; Return (s ++ lit "," ++ t))%result
         end) l
  | VObj o =>
      match own_property (lit "toString") o with
      | Some _ => Throw (TypeError (lit "Cannot convert object to primitive value"))
      | None => Return (lit "[object Object]")
      end
  end.

(** [Object.entries(v)] *)
Definition Object_entries (v : value) : result exn (list (jsstring * value)) :=
  match v with
  | VUndef | VNull =>
      Throw (TypeError (lit "Cannot convert undefined or null to object"))
  | VObj o => Return o
  | VArr l => Return (imap (fun i x => (decimal (N.of_nat i), x)) l)
  | VStr s => Return (imap (fun i c => (decimal (N.of_nat i), VStr [c])) s)
  | VBool _ | VNum _ => Return []
  end.

(** [o[k] = v] on the property list: an existing key keeps its place. *)
Fixpoint set_property (k : jsstring) (v : value) (o : list (jsstring * value))
  : list (jsstring * value) :=
  match o with
  | [] => [(k, v)]
  | (k', v') :: r =>
      if bool_decide (k = k') then (k, v) :: r else (k', v') :: set_property k v r
  end.

(** [{ ...o, ...src }]: object spread copies the own enumerable properties
    of [src]; [null], [undefined], numbers and booleans contribute none. *)
Definition spread (o : list (jsstring * value)) (src : value) : list (jsstring * value) :=
  match src with
  | VUndef | VNull => o
  | _ =>
      match Object_entries src with
      | Return es => foldl (fun acc kv => set_property kv.1 kv.2 acc) o es
      | Throw _ => o
      end
  end.

(** [results.map(f)] where [f] may throw: elements in order, first throw wins. *)
Fixpoint map_result {A B} (f : A -> result exn B) (l : list A) : result exn (list B) :=
  match l with
  | [] => Return []
  | x :: r => (y <- f x;; ys <- map_result f r;; Return (y :: ys))%result
  end.

(** *** [FalAIService.createVideoPrompt] *)

Definition createVideoPrompt (segment options : value) : result exn jsstring :=
  (segment_info <- prop segment "segment_info";;
   let isEnhanced := truthy (prop_opt segment_info "continuity_markers") in
   prompt <-
     (if isEnhanced then
        character_description <- prop segment "character_description";;
        current_state <- prop character_description "current_state";;
        current_state <- to_string current_state;;
        action_timeline <- prop segment "action_timeline";;
        dialogue <- prop action_timeline "dialogue";;
        dialogue <- to_string dialogue;;
        action_timeline <- prop segment "action_timeline";;
        synchronized_actions <- prop action_timeline "synchronized_actions";;
        entries <- Object_entries (or_else synchronized_actions (VObj []));;
        actions <- map_result
          (fun '(time, action) =>
             action <- to_string action;; Return (time ++ lit ": " ++ action))
          entries;;
        scene_continuity <- prop segment "scene_continuity";;
        camera_position <- prop scene_continuity "camera_position";;
        camera_position <- to_string camera_position;;
        scene_continuity <- prop segment "scene_continuity";;
        props_in_frame <- prop scene_continuity "props_in_frame";;
        props_in_frame <- to_string props_in_frame;;
        action_timeline <- prop segment "action_timeline";;
        micro_expressions <- prop action_timeline "micro_expressions";;
        micro_expressions <-
          to_string (or_else micro_expressions (VStr (lit "natural facial expressions")));;
        Return
          (lit "UGC style video: " ++ current_state ++ lit ". " ++ newline
           ++ lit "      " ++ newline
           ++ lit "Dialogue: " ++ quote ++ dialogue ++ quote ++ newline
           ++ newline
           ++ lit "Actions: " ++ join (lit ", ") actions ++ newline
           ++ newline
           ++ lit "Camera: " ++ camera_position ++ newline
           ++ lit "Environment: " ++ props_in_frame ++ newline
           ++ newline
           ++ lit "Style: Authentic user-generated content, handheld camera, natural lighting, casual and relatable, "
           ++ micro_expressions)
      else
        character_description <- prop segment "character_description";;
        current_state <-
          to_string (or_else (prop_opt character_description "current_state")
                       (VStr (lit "Natural presenter")));;
        action_timeline <- prop segment "action_timeline";;
        dialogue <- to_string (or_else (prop_opt action_timeline "dialogue") (VStr []));;
        action_timeline <- prop segment "action_timeline";;
        synchronized_actions <-
          to_string (or_else (prop_opt action_timeline "synchronized_actions")
                       (VStr (lit "Natural gestures while speaking")));;
        scene_continuity <- prop segment "scene_continuity";;
        camera_position <-
          to_string (or_else (prop_opt scene_continuity "camera_position")
                       (VStr (lit "Medium shot, eye level")));;
        Return
          (lit "UGC style video: " ++ current_state ++ lit "." ++ newline
           ++ lit "      " ++ newline
           ++ lit "Dialogue: " ++ quote ++ dialogue ++ quote ++ newline
           ++ newline
           ++ lit "Actions: " ++ synchronized_actions ++ newline
           ++ newline
           ++ lit "Camera: " ++ camera_position ++ newline
           ++ newline
           ++ lit "Style: Authentic user-generated content, handheld camera, natural lighting, casual and relatable"));;
   (* Ensure prompt meets FalAI requirements (clean and concise) *)
   Return (substring0 1000 (replace_spaces (trim prompt))))%result.

(** *** [FalAIService.calculateCost] *)

(** The amount in exact arithmetic, as the totals of a batch are stated;
    [binary64.calculateCost] is the same function in IEEE doubles. *)
Definition calculateCost (duration generateAudio : value) : result exn Q :=
  (let generateAudio :=
     match generateAudio with VUndef => VBool true | v => v end in
   (* Parse duration (e.g., "8s" -> 8) *)
   digits <-
     match duration with
     | VStr s => Return (remove_non_digits s)
     | VUndef => Throw (TypeError (lit "Cannot read properties of undefined (reading 'replace')"))
     | VNull => Throw (TypeError (lit "Cannot read properties of null (reading 'replace')"))
     | _ => Throw (TypeError (lit "duration.replace is not a function"))
     end;;
   let seconds :=
     match parseInt digits with
     | Some n => if n =? 0 then 8 else n
     | None => 8
     end in
   (* FalAI pricing: $0.20-$0.40 per second depending on audio *)
   let baseRate := if truthy generateAudio then 0.40%Q else 0.20%Q in
   Return (inject_Z seconds * baseRate)%Q)%result.

(** *** Effects *)

(** The observable events of a run, oldest first: entry into the provider
    adapter, an HTTP request sent, a timer awaited. *)
Inductive event : Type :=
| Invoke (segment options : value)
| HttpPost (url : jsstring) (body : value)
| SetTimeout (ms : nat).

Definition is_post (e : event) : bool :=
  match e with HttpPost _ _ => true | _ => false end.

(** An [async] function: from the events so far to an outcome and the
    events after it. *)
Definition M (A : Type) : Type := list event -> result exn A * list event.

Definition ret {A} (a : A) : M A := fun t => (Return a, t).
Definition throw {A} (e : exn) : M A := fun t => (Throw e, t).
Definition emit (e : event) : M unit := fun t => (Return tt, t ++ [e]).
Definition lift {A} (r : result exn A) : M A := fun t => (r, t).

Definition bind {A B} (m : M A) (k : A -> M B) : M B :=
  fun t =>
    match m t with
    | (Return a, t') => k a t'
    | (Throw e, t') => (Throw e, t')
    end.

Definition try_catch {A} (body : M A) (handler : exn -> M A) : M A :=
  fun t =>
    match body t with
    | (Return a, t') => (Return a, t')
    | (Throw e, t') => handler e t'
    end.

(** How the HTTP client settles a request. *)
Inductive settled : Type :=
| Resolved (data : value)
| Rejected (message : jsstring) (code : option jsstring) (request : bool)
    (response : option (N * value)).

(** The service object. [axiosInstance k url body] is how the [k]-th
    request of the run (counted from 0) settles: the provider and the
    network decide it. *)
Record FalAIService : Type := {
  apiKey : option string;
  initialized : bool;
  axiosInstance : nat -> jsstring -> value -> settled;
}.

(** [constructor] and [initialize] *)
Definition new_FalAIService (env : gmap string string)
    (network : nat -> jsstring -> value -> settled) : FalAIService :=
  let apiKey :=
    if env_truthy env "FAL_AI_API_KEY" then env !! "FAL_AI_API_KEY"%string
    else env !! "FALAI_API_KEY"%string in
  {| apiKey := apiKey;
     initialized := env_truthy env "FAL_AI_API_KEY" || env_truthy env "FALAI_API_KEY";
     axiosInstance := network |}.

(** [await this.axiosInstance.post(url, body)] *)
Definition post (this : FalAIService) (url : jsstring) (body : value) : M value :=
  fun t =>
    (match axiosInstance this (length (filter (fun e => is_post e = true) t)) url body with
     | Resolved data => Return data
     | Rejected m c rq rs => Throw (AxiosError m c rq rs)
     end,
     t ++ [HttpPost url body]).

Notation "x <- m ;; k" := (bind m (fun x => k))
  (at level 100, m at next level, right associativity) : async_scope.

(** *** [FalAIService.generateVideoFromSegment] *)

Record video : Type := {
  segmentNumber : value;
  videoUrl : value;
  status : value;
  duration : value;
  cost : Q;
  requestId : value;
  metadata_prompt : jsstring;
  metadata_aspectRatio : value;
  metadata_resolution : value;
  metadata_generateAudio : value;
}.

Definition strict_equal_false (v : value) : bool :=
  match v with VBool false => true | _ => false end.

(** [options = {}] *)
Definition default_options (options : value) : value :=
  match options with VUndef => VObj [] | _ => options end.

(** The object literal [requestData]. *)
Definition requestData (prompt : jsstring) (options : value) : result exn value :=
  (aspectRatio <- prop options "aspectRatio";;
   duration <- prop options "duration";;
   resolution <- prop options "resolution";;
   generateAudio <- prop options "generateAudio";;
   falaiOptions <- prop options "falaiOptions";;
   Return (VObj (spread
     [ (lit "prompt", VStr prompt);
       (lit "aspect_ratio", or_else aspectRatio (VStr (lit "16:9")));
       (lit "duration", or_else duration (VStr (lit "8s")));
       (lit "resolution", or_else resolution (VStr (lit "720p")));
       (lit "generate_audio", VBool (negb (strict_equal_false generateAudio))) ]
     falaiOptions)))%result.

(** The [try] block of [generateVideoFromSegment]. *)
Definition generateVideoFromSegment_try (this : FalAIService) (segment options : value)
  : M video :=
  (prompt <- lift (createVideoPrompt segment options);;
   requestData <- lift (requestData prompt options);;
   (* Always use fast endpoint for Veo3 optimization *)
   let endpoint := lit "/fast" in
   data <- post this endpoint requestData;;
   lift
     (segment_info <- prop segment "segment_info";;
      video <- prop data "video";;
      status <- prop data "status";;
      cost <- calculateCost (prop_opt requestData "duration")
                (prop_opt requestData "generate_audio");;
      request_id <- prop data "request_id";;
      Return
        {| segmentNumber := prop_opt segment_info "segment_number";
           videoUrl := prop_opt video "url";
           status := or_else status (VStr (lit "completed"));
           duration := prop_opt requestData "duration";
           cost := cost;
           requestId := request_id;
           metadata_prompt := prompt;
           metadata_aspectRatio := prop_opt requestData "aspect_ratio";
           metadata_resolution := prop_opt requestData "resolution";
           metadata_generateAudio := prop_opt requestData "generate_audio" |})%result)%async.

(** Its [catch (error)] block: the arguments of [logger.logError] are
    evaluated, then the error is rethrown in normalized form. *)
Definition generateVideoFromSegment_catch (segment options : value) (error : exn)
  : M video :=
  (_ <- lift (segment_info <- prop segment "segment_info";;
              createVideoPrompt segment options)%result;;
   (* Enhanced error handling for different types of API errors *)
   match response error with
   | Some (status, data) =>
       if (status =? 400)%N then
         detail <- lift (e <- prop data "error";;
                         to_string (or_else e (VStr (lit "Bad request parameters"))))%result;;
         throw (Error (lit "Invalid request: " ++ detail))
       else if (status =? 401)%N then
         throw (Error (lit "Invalid API key. Please check your FALAI_API_KEY"))
       else if (status =? 402)%N then
         throw (Error (lit "Insufficient credits. Please add funds to your FalAI account"))
       else if (status =? 429)%N then
         throw (Error (lit "Rate limit exceeded. Please wait and try again"))
       else if (status =? 500)%N then
         throw (Error (lit "FalAI service error. Please try again later"))
       else
         detail <- lift (e <- prop data "error";;
                         to_string (or_else e (VStr (lit "Unknown error"))))%result;;
         throw (Error (lit "FalAI API error (" ++ decimal status ++ lit "): " ++ detail))
   | None =>
       if bool_decide (code error = Some (lit "ECONNABORTED")) then
         throw (Error (lit "Request timeout. Video generation is taking longer than expected"))
       else if request error then
         throw (Error (lit "Network error. Please check your internet connection"))
       else
         throw (Error (lit "FalAI service error: " ++ message error))
   end)%async.

Definition generateVideoFromSegment (this : FalAIService) (segment options : value)
  : M video :=
  (let options := default_options options in
   _ <- emit (Invoke segment options);;
   if negb (initialized this) then
     throw (Error (lit "FalAI service not initialized. Please configure FALAI_API_KEY"))
   else
   _ <- lift (segment_info <- prop segment "segment_info";;
              to_string (prop_opt segment_info "segment_number"))%result;;
   try_catch (generateVideoFromSegment_try this segment options)
     (generateVideoFromSegment_catch segment options))%async.

(** *** [FalAIService.generateVideosForAllSegments] *)

(** An element of [results]: the adapter's object (with [success: true]),
    or [{ success: false, segmentNumber, error }]. *)
Inductive entry : Type :=
| Generated (v : video)
| Failed (segmentNumber : value) (error : jsstring).

Definition success (r : entry) : bool :=
  match r with Generated _ => true | Failed _ _ => false end.

Definition entry_cost (r : entry) : Q :=
  match r with Generated v => cost v | Failed _ _ => 0 end.

Record batch_error : Type := {
  segmentIndex : nat;
  error : jsstring;
}.

Record batch : Type := {
  batch_success : bool;
  videos : list entry;
  totalSegments : nat;
  successCount : nat;
  failureCount : nat;
  totalCost : Q;
  errors : option (list batch_error);
}.

(** The [for] loop at index [i], [rest] being the segments from [i] on and
    [len] being [segments.length]. *)
Fixpoint process_segments (this : FalAIService) (options : value) (len i : nat)
    (rest : list value) (results : list entry) (errors : list batch_error)
  : M (list entry * list batch_error) :=
  match rest with
  | [] => ret (results, errors)
  | segment :: rest =>
      (pushed <-
         try_catch
           (result <- generateVideoFromSegment this segment
                        (VObj (set_property (lit "segmentIndex") (VNum (number_of_nat i))
                                 (spread [] options)));;
            let results := results ++ [Generated result] in
            (* Add small delay between requests to be respectful *)
            _ <- (if Z.of_nat i <? Z.of_nat len - 1 then emit (SetTimeout 1000) else ret tt);;
            ret (results, errors))
           (fun error =>
              let errors :=
                errors ++ [{| segmentIndex := i + 1; error := message error |}] in
              (* Continue with next segment instead of failing entirely *)
              segment_info <- lift (prop segment "segment_info");;
              ret (results ++
                     [Failed (or_else (prop_opt segment_info "segment_number")
                                (VNum (number_of_nat (i + 1))))
                        (message error)],
                   errors));;
       process_segments this options len (S i) rest pushed.1 pushed.2)%async
  end.

Definition generateVideosForAllSegments (this : FalAIService)
    (segments : list value) (options : value) : M batch :=
  (if negb (initialized this) then throw (Error (lit "FalAI service not initialized"))
   else
   (* Process segments sequentially to avoid rate limits *)
   done <- process_segments this options (length segments) 0 segments [] [];;
   let results := done.1 in
   let errors := done.2 in
   let successCount := length (filter (fun r => success r = true) results) in
   let totalCost :=
     foldl (fun sum r => (sum + entry_cost r)%Q) 0%Q
       (filter (fun r => success r && negb (Qeq_bool (entry_cost r) 0) = true) results) in
   ret {| batch_success := bool_decide (0 < successCount)%nat;
          videos := results;
          totalSegments := length segments;
          successCount := successCount;
          failureCount := length errors;
          totalCost := (inject_Z (Math_round (totalCost * 100)) / 100)%Q;
          errors := if bool_decide (0 < length errors)%nat then Some errors else None |})%async.

(** *** The route [POST /generate-videos-falai] *)

Inductive reply_body : Type :=
| Refused (error message : jsstring)
| Videos (result : batch).

Record reply : Type := {
  statusCode : N;
  body : reply_body;
}.

(** Determine appropriate status code *)
Definition statusCode_for (message : jsstring) : N :=
  if includes message (lit "API key") then 401%N
  else if includes message (lit "credits") then 402%N
  else if includes message (lit "rate limit") then 429%N
  else if includes message (lit "Invalid request") then 400%N
  else 500%N.

Definition is_invalid_segment (segment : value) : result exn bool :=
  (action_timeline <- prop segment "action_timeline";;
   if negb (truthy (prop_opt action_timeline "dialogue")) then
     character_description <- prop segment "character_description";;
     Return (negb (truthy character_description))
   else Return false)%result.

Definition generate_videos_falai (falaiService : FalAIService) (req_body : value) : M reply :=
  try_catch
    (segments <- lift (prop req_body "segments");;
     options <- lift (prop req_body "options");;
     let options := default_options options in
     match segments with
     | VArr ((_ :: _) as segments) =>
         (* Validate segments structure *)
         invalid <- lift (map_result is_invalid_segment segments);;
         if bool_decide (0 < length (filter (fun b => b = true) invalid))%nat then
           ret {| statusCode := 400;
                  body := Refused (lit "Invalid segment structure")
                    (lit "Each segment must have action_timeline.dialogue or character_description") |}
         else
           options <- lift
             (aspectRatio <- prop options "aspectRatio";;
              duration <- prop options "duration";;
              resolution <- prop options "resolution";;
              generateAudio <- prop options "generateAudio";;
              Return (VObj (spread
                [ (lit "aspectRatio", or_else aspectRatio (VStr (lit "16:9")));
                  (lit "duration", or_else duration (VStr (lit "8s")));
                  (lit "resolution", or_else resolution (VStr (lit "720p")));
                  (lit "generateAudio", VBool (negb (strict_equal_false generateAudio)));
                  (lit "useFast", VBool true) ]
                options)))%result;;
           result <- generateVideosForAllSegments falaiService segments options;;
           ret {| statusCode := 200; body := Videos result |}
     | _ =>
         ret {| statusCode := 400;
                body := Refused (lit "Invalid request")
                  (lit "segments array is required and must not be empty") |}
     end)%async
    (fun error =>
       _ <- lift (prop req_body "segments");;
       ret {| statusCode := statusCode_for (message error);
              body := Refused (lit "Video generation failed") (message error) |})%async.

(** *** [server.js]: the error-handling middleware *)

(** [random] is the text of [Math.random().toString(36)] for the draw made
    by this call. The result is the argument of [res.status] and the object
    given to [res.json] (which drops properties that are [undefined]). *)
Definition error_middleware (env : gmap string string) (random : jsstring)
    (err req : value) : result exn (value * value) :=
  (let errorId := substring_from 7 random in
   method <- prop req "method";;
   url <- prop req "url";;
   message <- prop err "message";;
   stack <- prop err "stack";;
   (* Determine error response based on environment *)
   let isDevelopment := bool_decide (env !! "NODE_ENV"%string = Some "development"%string) in
   status <- prop err "status";;
   headers <- prop req "headers";;
   Return
     (or_else status (VNum (number_of_nat 500)),
      VObj (spread
        [ (lit "error", VStr (lit "Internal server error"));
          (lit "errorId", VStr errorId);
          (lit "message", if isDevelopment then message else VStr (lit "Something went wrong")) ]
        (if isDevelopment
         then VObj [ (lit "stack", stack);
                     (lit "request", VObj [ (lit "method", method);
                                            (lit "url", url);
                                            (lit "headers", headers) ]) ]
         else VBool false))))%result.

End Model.

Arguments value : clear implicits.
Arguments exn : clear implicits.
Arguments event : clear implicits.
Arguments settled : clear implicits.
Arguments FalAIService : clear implicits.
Arguments video : clear implicits.
Arguments entry : clear implicits.
Arguments batch : clear implicits.
Arguments reply : clear implicits.

Notation "x <- m ;; k" := (bind m (fun x => k))
  (at level 100, m at next level, right associativity) : async_scope.


(** ** [server.js]: environment validation and [GET /api/health] *)

(** The [errors] of [validateEnvironment]; the server exits when there are any. *)
Definition validateEnvironment_errors (env : gmap string string) : list string :=
  if negb (env_truthy env "OPENAI_API_KEY")
  then ["OPENAI_API_KEY is missing - Required for script generation"%string]
  else [].

Record apis : Type := {
  openai : bool;
  gemini : bool;
  vertex : bool;
  kieai : bool;
}.

(** The fields of [healthStatus] that are computed; [timestamp], [uptime],
    [node] and [memory] are copied from the clock and the process. *)
Record healthStatus : Type := {
  health_status : string;
  environment : string;
  health_apis : apis;
  buildAvailable : bool;
}.

(** [index_exists] is [fs.existsSync] of [build/index.html]. *)
Definition api_health (env : gmap string string) (index_exists : bool) : healthStatus :=
  {| health_status := "ok";
     environment :=
       if env_truthy env "NODE_ENV" then default ""%string (env !! "NODE_ENV"%string)
       else "development"%string;
     health_apis :=
       {| openai := env_truthy env "OPENAI_API_KEY";
          gemini := env_truthy env "GOOGLE_GEMINI_API_KEY";
          vertex := env_truthy env "GOOGLE_APPLICATION_CREDENTIALS";
          kieai := env_truthy env "KIEAI_API_KEY" |};
     buildAvailable := index_exists |}.

(** A credential is present when its variable is set to a non-empty value. *)
Definition credential_present (env : gmap string string) (name : string) : Prop :=
  exists v : string, env !! name = Some v /\ v <> ""%string.

(** ** Numbers that are integers *)

Definition Z_to_string (z : Z) : jsstring :=
  if z <? 0 then lit "-" ++ decimal (Z.abs_N z) else decimal (Z.abs_N z).

#[export] Instance integer_numbers : JSNumber Z := {|
  number_of_nat := Z.of_nat;
  number_is_falsy := fun z => z =? 0;
  number_to_string := Z_to_string;
|}.

(** ** Notions used to state the properties *)

(** The value of a decimal numeral, digit by position. *)
Fixpoint numeral_value (ds : jsstring) : Z :=
  match ds with
  | [] => 0
  | d :: r => digit_value d * 10 ^ Z.of_nat (length r) + numeral_value r
  end.

(** The integer written by the digits of a duration string. *)
Definition digits_integer (duration : jsstring) : Z :=
  numeral_value (remove_non_digits duration).

(** The seconds that are billed: the integer written by the digits, and 8
    when there is no digit or the digits write 0. *)
Definition billed_seconds (duration : jsstring) : Z :=
  if bool_decide (digits_integer duration = 0) then 8 else digits_integer duration.

(** The per-second rate table. *)
Definition rate (audio : bool) : Q := if audio then 0.40%Q else 0.20%Q.


(** An amount that is a whole number of cents. *)
Definition whole_cents (q : Q) : Prop := exists k : Z, (q * 100 == inject_Z k)%Q.

(** The string does not start with white space. *)
Definition head_not_space (s : jsstring) : bool :=
  match s with d :: _ => negb (is_space d) | [] => true end.

Section Notions.
Context {number : Type} `{JSNumber number}.
Local Abbreviation value := (value number).
Local Abbreviation exn := (exn number).
Local Abbreviation event := (event number).
Local Abbreviation FalAIService := (FalAIService number).
Local Abbreviation video := (video number).
Local Abbreviation entry := (entry number).

Definition non_nullish (v : value) : Prop := v <> VUndef /\ v <> VNull.

(** The options the loop passes with the segment at index [i]. *)
Definition call_options (options : value) (i : nat) : value :=
  VObj (set_property (lit "segmentIndex") (VNum (number_of_nat i)) (spread [] options)).

(** One iteration seen from outside: the outcome of the adapter call and
    the events after the iteration. *)
Definition iteration (this : FalAIService) (options : value) (len i : nat)
    (segment : value) (t : list event) : result exn video * list event :=
  match generateVideoFromSegment this segment (call_options options i) t with
  | (Return v, t') =>
      (Return v, if Z.of_nat i <? Z.of_nat len - 1 then t' ++ [SetTimeout 1000] else t')
  | (Throw e, t') => (Throw e, t')
  end.

(** The outcomes of the adapter calls for the segments from index [i] on,
    each call starting from the events left by the iterations before it. *)
Fixpoint adapter_outcomes (this : FalAIService) (options : value) (len i : nat)
    (rest : list value) (t : list event) : list (result exn video) :=
  match rest with
  | [] => []
  | segment :: rest =>
      let it := iteration this options len i segment t in
      it.1 :: adapter_outcomes this options len (S i) rest it.2
  end.

(** The events after those iterations. *)
Fixpoint events_after (this : FalAIService) (options : value) (len i : nat)
    (rest : list value) (t : list event) : list event :=
  match rest with
  | [] => t
  | segment :: rest =>
      events_after this options len (S i) rest (iteration this options len i segment t).2
  end.

Definition succeeded {A} (o : result exn A) : bool :=
  match o with Return _ => true | Throw _ => false end.

Definition failures {A} (outs : list (result exn A)) : nat :=
  length (filter (fun o => succeeded o = false) outs).

Definition successes {A} (outs : list (result exn A)) : list A :=
  omap (fun o => match o with Return a => Some a | Throw _ => None end) outs.

(** The entry of [videos] that belongs to the segment at index [i], given
    the outcome of its call. *)
Definition entry_of (i : nat) (segment : value) (o : result exn video) : entry :=
  match o with
  | Return v => Generated v
  | Throw e =>
      Failed (or_else (prop_opt (prop_opt segment "segment_info") "segment_number")
                (VNum (number_of_nat (i + 1))))
        (message e)
  end.

Fixpoint entries_from (i : nat) (rest : list value) (outs : list (result exn video))
  : list entry :=
  match rest, outs with
  | segment :: rest, o :: outs => entry_of i segment o :: entries_from (S i) rest outs
  | _, _ => []
  end.

Fixpoint errors_from (i : nat) (outs : list (result exn video)) : list batch_error :=
  match outs with
  | [] => []
  | Return _ :: outs => errors_from (S i) outs
  | Throw e :: outs =>
      {| segmentIndex := i + 1; error := message e |} :: errors_from (S i) outs
  end.

(** The segments the adapter was entered with, in order of entry. *)
Definition invoked (t : list event) : list value :=
  omap (fun e => match e with Invoke s _ => Some s | _ => None end) t.

(** Audio is included unless the flag sent to the provider is falsy; a
    flag that is [undefined] leaves the default, which is audio. *)
Definition audio_included (generate_audio : value) : bool :=
  match generate_audio with VUndef => true | v => truthy v end.




(** What the standard branch yields when every optional field is missing. *)
Definition default_prompt : jsstring :=
  lit "UGC style video: Natural presenter. Dialogue: " ++ quote ++ quote
  ++ lit " Actions: Natural gestures while speaking Camera: Medium shot, eye level Style: Authentic user-generated content, handheld camera, natural lighting, casual and relatable".

End Notions.

(** ** The segment pipeline *)

Inductive format : Type := standard | enhanced | continuation.

Inductive pipeline_error : Type :=
| ValidationError
| ProviderError (status : N)
| PipelineIntegrityError.

(** The status the HTTP surface answers with. *)
Definition http_status (e : pipeline_error) : N :=
  match e with
  | ValidationError => 400
  | ProviderError status => status
  | PipelineIntegrityError => 500
  end.

Section Pipeline.

(** The description a provider returns is an opaque payload. *)
Variable description : Type.

(** A request to the text Provider Adapter: the base description, or one
    segment with the state carried into its prompt. *)
Inductive text_request : Type :=
| BaseRequest (script : jsstring) (fmt : format)
| SegmentRequest (fmt : format) (segment_number : nat) (dialogue : jsstring)
    (carried : description).

(** The Segment Splitter (section 4.1). *)
Variable split : jsstring -> list jsstring.

(** The text Provider Adapter: how the [k]-th call of the run answers,
    a description or the status of its failure. *)
Variable provider : nat -> text_request -> description + N.

(** The continuity state a generated description leaves for the next segment. *)
Variable continuity_state : description -> description.

Record segment : Type := {
  segment_number : nat;
  dialogue : jsstring;
  segment_description : description;
}.

(** [GeneratingSegment(i)]: sequential and fail-fast. [carried] is the base
    description in standard format and the state of the segment before in
    the other formats. *)
Fixpoint generate_segments (fmt : format) (i : nat) (dialogues : list jsstring)
    (carried : description) (done : list segment) (calls : list text_request)
  : (pipeline_error + list segment) * list text_request :=
  match dialogues with
  | [] => (inr done, calls)
  | d :: rest =>
      let request := SegmentRequest fmt i d carried in
      match provider (length calls) request with
      | inr status => (inl (ProviderError status), calls ++ [request])
      | inl generated =>
          let carried :=
            match fmt with
            | standard => carried
            | enhanced | continuation => continuity_state generated
            end in
          generate_segments fmt (S i) rest carried
            (done ++ [{| segment_number := i; dialogue := d;
                         segment_description := generated |}])
            (calls ++ [request])
      end
  end.

(** Modelled from the spec: the generation pipeline (its route and the text
    service are not among the sources). Per sections 3, 4.3 and 7 a Script
    shorter than 50 characters is a [ValidationError]; then the Script is
    split, zero segments being a validation error; the base description is
    requested once; the segments are generated in order. The result comes
    with the provider calls that were issued. *)
Definition run_pipeline (script : jsstring) (fmt : format)
  : (pipeline_error + list segment) * list text_request :=
  if (length script <? 50)%nat then (inl ValidationError, [])
  else
    match split script with
    | [] => (inl ValidationError, [])
    | dialogues =>
        let request := BaseRequest script fmt in
        match provider 0 request with
        | inr status => (inl (ProviderError status), [request])
        | inl base => generate_segments fmt 1 dialogues base [] [request]
        end
    end.

End Pipeline.

(** ** Scenarios *)

(** A service configured with a key, over the given network. *)
Definition configured (network : nat -> jsstring -> value Z -> settled Z) : FalAIService Z :=
  new_FalAIService {[ "FAL_AI_API_KEY"%string := "fal-key"%string ]} network.

(** A standard-format segment with the given number and dialogue. *)
Definition plain_segment (n : Z) (dialogue : string) : value Z :=
  VObj [ (lit "segment_info", VObj [ (lit "segment_number", VNum n) ]);
         (lit "action_timeline", VObj [ (lit "dialogue", VStr (lit dialogue)) ]) ].

Definition three_segments : list (value Z) :=
  [ plain_segment 1 "Hi there"; plain_segment 2 "This is it"; plain_segment 3 "Bye now" ].

(** The provider answers 200 with a video. *)
Definition video_ready : settled Z :=
  Resolved (VObj [ (lit "video", VObj [ (lit "url", VStr (lit "https://v/1.mp4")) ]);
                   (lit "request_id", VStr (lit "r1")) ]).

(** The provider answers 429. *)
Definition too_many_requests : settled Z :=
  Rejected (lit "Request failed with status code 429") (Some (lit "ERR_BAD_REQUEST")) true
    (Some (429%N, VObj [ (lit "error", VStr (lit "slow down")) ])).

(** All requests succeed but the one numbered [k], which is answered 429. *)
Definition fails_at (k : nat) : nat -> jsstring -> value Z -> settled Z :=
  fun n _ _ => if (n =? k)%nat then too_many_requests else video_ready.

Definition always_ready : nat -> jsstring -> value Z -> settled Z :=
  fun _ _ _ => video_ready.


(** The kinds of the events of a log, in order. *)
Definition outline {number : Type} (t : list (event number)) : list string :=
  map (fun e => match e with
                | Invoke _ _ => "invoke"
                | HttpPost _ _ => "post"
                | SetTimeout _ => "timeout"
                end)%string t.

(** An error object with a message and a stack, and a request. *)
Definition boom : value Z :=
  VObj [ (lit "message", VStr (lit "boom")); (lit "stack", VStr (lit "Error: boom at x.js:1")) ].

Definition get_health : value Z :=
  VObj [ (lit "method", VStr (lit "GET")); (lit "url", VStr (lit "/api/health"));
         (lit "headers", VObj []) ].

(** ** [utils/logger.js]: the class [Logger] *)

Module logger.

(** Log levels *)
Definition ERROR : N := 0.
Definition WARN : N := 1.
Definition INFO : N := 2.
Definition DEBUG : N := 3.
Definition TRACE : N := 4.

(** Color codes for terminal output *)
Definition escape (code : string) : jsstring := [27%N] ++ lit code.
Definition colors_reset : jsstring := escape "[0m".
Definition colors_red : jsstring := escape "[31m".
Definition colors_yellow : jsstring := escape "[33m".
Definition colors_blue : jsstring := escape "[34m".
Definition colors_magenta : jsstring := escape "[35m".
Definition colors_cyan : jsstring := escape "[36m".
Definition colors_white : jsstring := escape "[37m".

(** The [options] of the constructor; [None] is a property that is not given. *)
Record Logger_options : Type := {
  options_level : option N;
  options_writeToFile : option bool;
  options_colorize : option bool;
}.

(** [logFile] and [errorFile] are set only when [writeToFile] is;
    [requestId] is [null] or a string. *)
Record Logger : Type := {
  name : jsstring;
  level : N;
  writeToFile : bool;
  colorize : bool;
  logFile : option jsstring;
  errorFile : option jsstring;
  requestId : option jsstring;
}.

(** What a logger does to the world: a line on one of the streams of the
    console, or text appended to a file. *)
Inductive log_effect : Type :=
| console_error (text : jsstring)
| console_warn (text : jsstring)
| console_log (text : jsstring)
| appendFile (file text : jsstring).

Section LoggerModel.
Context {number : Type} `{JSNumber number}.

(** [path.join] and [JSON.stringify(data, null, 2)] are library functions. *)
Variable path_join : jsstring -> jsstring -> jsstring.
Variable JSON_stringify : value number -> jsstring.

(** [constructor(name = 'app', options = {})]. [isTTY] is
    [process.stdout.isTTY] and [date] the date part of the clock. *)
Definition new_Logger (env : gmap string string) (isTTY : bool) (logsDir date : jsstring)
    (name : jsstring) (options : Logger_options) : Logger :=
  let level :=
    match options_level options with
    | Some l => if (l =? 0)%N
                then (if bool_decide (env !! "NODE_ENV"%string = Some "development"%string)
                      then DEBUG else INFO)
                else l
    | None => if bool_decide (env !! "NODE_ENV"%string = Some "development"%string)
              then DEBUG else INFO
    end in
  let writeToFile := negb (bool_decide (options_writeToFile options = Some false)) in
  {| name := name;
     level := level;
     writeToFile := writeToFile;
     colorize := negb (bool_decide (options_colorize options = Some false)) && isTTY;
     logFile :=
       if writeToFile
       then Some (path_join logsDir (name ++ lit "-" ++ date ++ lit ".log"))
       else None;
     errorFile :=
       if writeToFile
       then Some (path_join logsDir (name ++ lit "-error-" ++ date ++ lit ".log"))
       else None;
     requestId := None |}.

Definition setRequestId (this : Logger) (id : jsstring) : Logger :=
  {| name := name this; level := level this; writeToFile := writeToFile this;
     colorize := colorize this; logFile := logFile this; errorFile := errorFile this;
     requestId := Some id |}.

Definition clearRequestId (this : Logger) : Logger :=
  {| name := name this; level := level this; writeToFile := writeToFile this;
     colorize := colorize this; logFile := logFile this; errorFile := errorFile this;
     requestId := None |}.

(** [Object.keys(LogLevel).find(key => LogLevel[key] === level)], printed. *)
Definition levelName (level : N) : jsstring :=
  if (level =? ERROR)%N then lit "ERROR"
  else if (level =? WARN)%N then lit "WARN"
  else if (level =? INFO)%N then lit "INFO"
  else if (level =? DEBUG)%N then lit "DEBUG"
  else if (level =? TRACE)%N then lit "TRACE"
  else lit "undefined".

(** [_formatMessage]; [timestamp] is the clock's ISO text. A [data] that is
    an object or an array is printed by [JSON.stringify], any other truthy
    one by string concatenation. *)
Definition _formatMessage (this : Logger) (timestamp : jsstring) (level : N)
    (message : jsstring) (data : value number) : jsstring :=
  let requestIdStr :=
    match requestId this with
    | Some id => if bool_decide (id = []) then [] else lit "[" ++ id ++ lit "]"
    | None => []
    end in
  let formattedMessage :=
    lit "[" ++ timestamp ++ lit "] [" ++ levelName level ++ lit "] [" ++ name this
    ++ lit "]" ++ requestIdStr ++ lit " " ++ message in
  if truthy data then
    match data with
    | VArr _ | VObj _ => formattedMessage ++ newline ++ JSON_stringify data
    | _ =>
        formattedMessage ++ lit " "
        ++ match to_string data with Return s => s | Throw _ => [] end
    end
  else formattedMessage.

Definition _colorizeMessage (this : Logger) (level : N) (message : jsstring) : jsstring :=
  if negb (colorize this) then message
  else
    let color :=
      if (level =? ERROR)%N then colors_red
      else if (level =? WARN)%N then colors_yellow
      else if (level =? INFO)%N then colors_blue
      else if (level =? DEBUG)%N then colors_cyan
      else if (level =? TRACE)%N then colors_magenta
      else colors_white in
    color ++ message ++ colors_reset.

(** [_writeToFile] *)
Definition _writeToFile (this : Logger) (filename : option jsstring) (message : jsstring)
  : list log_effect :=
  if negb (writeToFile this) then []
  else match filename with
       | Some file => [appendFile file (message ++ newline)]
       | None => []
       end.

(** [_log]; [at_level] is its parameter [level]. *)
Definition _log (this : Logger) (timestamp : jsstring) (at_level : N) (message : jsstring)
    (data : value number) : list log_effect :=
  if (level this <? at_level)%N then []
  else
    let formattedMessage := _formatMessage this timestamp at_level message data in
    let colorizedMessage := _colorizeMessage this at_level formattedMessage in
    (* Output to console *)
    [ if (at_level =? ERROR)%N then console_error colorizedMessage
      else if (at_level =? WARN)%N then console_warn colorizedMessage
      else console_log colorizedMessage ]
    (* Write to file *)
    ++ (if writeToFile this then
          _writeToFile this (logFile this) formattedMessage
          ++ (if (at_level =? ERROR)%N
              then _writeToFile this (errorFile this) formattedMessage else [])
        else []).

End LoggerModel.

End logger.

(** ** [FalAIService.getServiceStatus] and the route [GET /falai-status] *)

Record service_status : Type := {
  available : bool;
  reason : option jsstring;
}.

Section StatusModel.
Context {number : Type} `{JSNumber number}.

(** [health] is how the request [GET /health] settles, if it is sent. Any
    rejection is caught. *)
Definition getServiceStatus (this : FalAIService number) (health : settled number)
  : service_status :=
  if negb (initialized this) then
    {| available := false; reason := Some (lit "API key not configured") |}
  else
    match health with
    | Resolved _ => {| available := true; reason := None |}
    | Rejected _ _ _ _ =>
        {| available := false; reason := Some (lit "Service unavailable") |}
    end.

End StatusModel.

(** ** [calculateCost] in IEEE 754 doubles *)

(** A JavaScript number is an IEEE 754 binary64 value. What
    [calculateCost] returns is given here in that arithmetic, over the
    Standard Library's specification of binary floating point
    ([SpecFloat]: round to nearest, ties to even; one not-a-number, as
    JavaScript has one [NaN]). *)
Module binary64.

Definition prec : Z := 53.
Definition emax : Z := 1024.

(** The Number value of an integer: the nearest double, and [Infinity]
    beyond the range. *)
Definition of_Z (z : Z) : spec_float := binary_normalize prec emax z 0 false.

(** [x * y] and [x / y] *)
Definition mul (x y : spec_float) : spec_float := SFmul prec emax x y.
Definition div (x y : spec_float) : spec_float := SFdiv prec emax x y.

(** The literals [0.40] and [0.20]: the doubles nearest to them,
    [0x3FD999999999999A] and [0x3FC999999999999A]. *)
Definition literal_0_40 : spec_float := S754_finite false 7205759403792794 (-54).
Definition literal_0_20 : spec_float := S754_finite false 7205759403792794 (-55).

(** A number is falsy when it is [0], [-0] or [NaN]. *)
Definition is_falsy (x : spec_float) : bool :=
  match x with
  | S754_zero _ | S754_nan => true
  | _ => false
  end.

(** [parseInt(s)] for a string of decimal digits: the Number value of the
    integer the leading digits write, [NaN] when there is none. (Beyond 20
    significant digits ECMAScript lets an implementation round a cut
    numeral; Node.js rounds the numeral itself, as here.) *)
Definition parseInt (s : jsstring) : spec_float :=
  match digit_prefix s with
  | [] => S754_nan
  | ds => of_Z (foldl (fun acc c => 10 * acc + digit_value c) 0 ds)
  end.

Section Cost.
Context {number : Type} `{JSNumber number}.

(** [FalAIService.calculateCost] *)
Definition calculateCost (duration generateAudio : value number)
  : result (exn number) spec_float :=
  (let generateAudio :=
     match generateAudio with VUndef => VBool true | v => v end in
   (* Parse duration (e.g., "8s" -> 8) *)
   digits <-
     match duration with
     | VStr s => Return (remove_non_digits s)
     | VUndef => Throw (TypeError (lit "Cannot read properties of undefined (reading 'replace')"))
     | VNull => Throw (TypeError (lit "Cannot read properties of null (reading 'replace')"))
     | _ => Throw (TypeError (lit "duration.replace is not a function"))
     end;;
   let seconds :=
     let n := parseInt digits in
     if is_falsy n then of_Z 8 else n in
   (* FalAI pricing: $0.20-$0.40 per second depending on audio *)
   let baseRate := if truthy generateAudio then literal_0_40 else literal_0_20 in
   Return (mul seconds baseRate))%result.

End Cost.

(** The per-second rate table, in doubles. *)
Definition rate (audio : bool) : spec_float :=
  if audio then literal_0_40 else literal_0_20.

(** The rational a double stands for. *)
Definition to_Q (x : spec_float) : option Q :=
  match x with
  | S754_zero _ => Some 0%Q
  | S754_finite s m e =>
      let q :=
        match e with
        | Z.neg k => Z.pos m # 2 ^ k
        | _ => inject_Z (Z.pos m * 2 ^ e)
        end in
      Some (if s then Qopp q else q)
  | S754_infinity _ | S754_nan => None
  end.

End binary64.

(** ** The client: [VideoGenerator.getCostDisplay] *)

(** [x.toFixed(2)] for [x >= 0], in exact arithmetic. *)
Definition toFixed2 (x : Q) : jsstring :=
  let n := Z.to_N (Math_round (x * 100)) in
  decimal (n / 100) ++ lit "." ++ [digit_unit (n / 10 mod 10); digit_unit (n mod 10)]%N.

(** The amount of the case ['falai']: [segments.length * seconds * rate]. *)
Definition falai_amount (segments_length : nat) (duration : jsstring) (generateAudio : bool)
  : Q :=
  let seconds :=
    match parseInt (remove_non_digits duration) with
    | Some n => if n =? 0 then 8 else n
    | None => 8
    end in
  let rate := if generateAudio then 0.40%Q else 0.20%Q in
  (inject_Z (Z.of_nat segments_length) * inject_Z seconds * rate)%Q.

Definition times_sign : jsstring := [215%N].

Definition getCostDisplay (selectedAPI : jsstring) (segments_length : nat)
    (duration : jsstring) (generateAudio : bool) : jsstring :=
  if bool_decide (selectedAPI = lit "gemini") then lit "Free (descriptions only)"
  else if bool_decide (selectedAPI = lit "falai") then
    let seconds :=
      match parseInt (remove_non_digits duration) with
      | Some n => if n =? 0 then 8 else n
      | None => 8
      end in
    lit "$" ++ toFixed2 (falai_amount segments_length duration generateAudio)
    ++ lit " (" ++ decimal (Z.to_N seconds) ++ lit "s " ++ times_sign ++ lit " $"
    ++ (if generateAudio then lit "0.4" else lit "0.2") ++ lit "/s " ++ times_sign
    ++ lit " " ++ decimal (N.of_nat segments_length) ++ lit " segments)"
  else if bool_decide (selectedAPI = lit "kieai") then
    lit "$" ++ toFixed2 (inject_Z (Z.of_nat segments_length) * 0.40)
    ++ lit " ($0.40 " ++ times_sign ++ lit " " ++ decimal (N.of_nat segments_length)
    ++ lit " segments)"
  else lit "Unknown".

(** ** Further notions *)

Section FurtherNotions.
Context {number : Type} `{JSNumber number}.
Local Abbreviation value := (value number).
Local Abbreviation exn := (exn number).
Local Abbreviation event := (event number).

(** The error is the HTTP client's own rejection. *)
Definition is_axios (e : exn) : bool :=
  match e with AxiosError _ _ _ _ => true | _ => false end.

(** Whatever is thrown is an [Error] or a [TypeError]. *)
Definition throws_plain {A} (r : result exn A) : Prop :=
  match r with
  | Throw e => is_axios e = false
  | Return _ => True
  end.

(** The HTTP requests of a log, and the delays of its timers. *)
Definition posts (t : list event) : list event := filter (fun e => is_post e = true) t.

Definition timers (t : list event) : list nat :=
  omap (fun e => match e with SetTimeout ms => Some ms | _ => None end) t.

Definition posts_to (url : jsstring) (t : list event) : Prop :=
  Forall (fun e => match e with HttpPost u _ => u = url | _ => True end) t.

(** The route's test of a segment: neither a dialogue nor a character
    description. *)
Definition invalid_structure (segment : value) : bool :=
  negb (truthy (prop_opt (prop_opt segment "action_timeline") "dialogue"))
  && negb (truthy (prop_opt segment "character_description")).

Definition nullish (v : value) : bool :=
  match v with VUndef | VNull => true | _ => false end.

(** The options the route hands to the service. *)
Definition route_options (options : value) : value :=
  VObj (spread
    [ (lit "aspectRatio", or_else (prop_opt options "aspectRatio") (VStr (lit "16:9")));
      (lit "duration", or_else (prop_opt options "duration") (VStr (lit "8s")));
      (lit "resolution", or_else (prop_opt options "resolution") (VStr (lit "720p")));
      (lit "generateAudio",
       VBool (negb (strict_equal_false (prop_opt options "generateAudio"))));
      (lit "useFast", VBool true) ]
    options).

End FurtherNotions.

(** ** Further scenarios *)

(** The client's [videoOptions], with the duration and the audio flag the
    user chose. *)
Definition videoOptions (duration : string) (generateAudio : bool) : value Z :=
  VObj [ (lit "aspectRatio", VStr (lit "16:9"));
         (lit "duration", VStr (lit duration));
         (lit "resolution", VStr (lit "720p"));
         (lit "generateAudio", VBool generateAudio);
         (lit "useFast", VBool true) ].

(** The body [{ segments, options }] the client posts. *)
Definition request_body (segments : list (value Z)) (options : value Z) : value Z :=
  VObj [ (lit "segments", VArr segments); (lit "options", options) ].

(** An enhanced segment (it has continuity markers) that lacks its
    character description. *)
Definition enhanced_without_character : value Z :=
  VObj [ (lit "segment_info",
          VObj [ (lit "segment_number", VNum 1);
                 (lit "continuity_markers", VObj []) ]) ].


(** * Properties *)

(** ** Strings *)

Example decimal_examples :
  decimal 0 = lit "0" /\ decimal 7 = lit "7" /\ decimal 429 = lit "429"
  /\ decimal 1000 = lit "1000".
Proof. by vm_compute. Qed.

Example parseInt_examples :
  parseInt (lit "8") = Some 8 /\ parseInt (lit "08") = Some 8
  /\ parseInt (lit "15") = Some 15 /\ parseInt [] = None.
Proof. by vm_compute. Qed.

Example clean_example :
  replace_spaces (trim (newline ++ lit "  a " ++ newline ++ [160%N] ++ lit " b  "))
  = lit "a b".
Proof. by vm_compute. Qed.

Example includes_examples :
  includes (lit "Invalid API key. Please check") (lit "API key") = true
  /\ includes (lit "Rate limit exceeded") (lit "rate limit") = false
  /\ includes (lit "abc") [] = true.
Proof. by vm_compute. Qed.







Lemma trimStart_head (s : jsstring) : head_not_space (trimStart s) = true.
Proof.
  induction s as [|c r IH]; simpl; [done|].
  destruct (is_space c) eqn:Hc; [done|]. simpl. by rewrite Hc.
Qed.


Lemma result_bind_Return {E A B} (r : result E A) (k : A -> result E B) (b : B) :
  result_bind r k = Return b -> exists a, r = Return a /\ k a = Return b.
Proof. destruct r as [a|e]; simpl; [eauto|done]. Qed.

(** ** Parsing the duration *)

Lemma foldl_horner (ds : jsstring) (a : Z) :
  foldl (fun acc c => 10 * acc + digit_value c) a ds
  = a * 10 ^ Z.of_nat (length ds) + numeral_value ds.
Proof.
  revert a. induction ds as [|d r IH]; intros a; cbn [foldl numeral_value length].
  - change (10 ^ Z.of_nat 0) with 1. lia.
  - rewrite IH, Nat2Z.inj_succ, Z.pow_succ_r by lia. ring.
Qed.

Lemma digit_prefix_remove_non_digits (s : jsstring) :
  digit_prefix (remove_non_digits s) = remove_non_digits s.
Proof.
  unfold remove_non_digits. induction s as [|c r IH]; [done|].
  rewrite filter_cons. case_decide as Hc; [|done].
  cbn [digit_prefix]. by rewrite Hc, IH.
Qed.

Lemma parseInt_remove_non_digits (s : jsstring) :
  parseInt (remove_non_digits s)
  = match remove_non_digits s with
    | [] => None
    | _ => Some (digits_integer s)
    end.
Proof.
  unfold parseInt, digits_integer. rewrite digit_prefix_remove_non_digits.
  destruct (remove_non_digits s) as [|d r] eqn:Hd; [done|].
  f_equal. rewrite foldl_horner. lia.
Qed.

Section Properties.
Context {number : Type} `{JSNumber number}.
Local Abbreviation value := (value number).
Local Abbreviation exn := (exn number).
Local Abbreviation event := (event number).
Local Abbreviation FalAIService := (FalAIService number).
Local Abbreviation video := (video number).
Local Abbreviation entry := (entry number).

(** ** [createVideoPrompt] *)

Lemma prop_not_nullish (v : value) (k : string) :
  non_nullish v -> prop v k = Return (prop_opt v k).
Proof. intros [??]. by destruct v. Qed.

Lemma prop_Return (v : value) (k : string) (x : value) :
  prop v k = Return x -> non_nullish v /\ x = prop_opt v k.
Proof. destruct v; simpl; intros [= <-] || done; by repeat split. Qed.


(** ** [calculateCost] *)

(** The flag is read for its truthiness, and a missing flag means audio. *)
Lemma calculateCost_string (duration : jsstring) (generateAudio : value) :
  calculateCost (VStr duration) generateAudio
  = Return (inject_Z (billed_seconds duration) * rate (audio_included generateAudio))%Q.
Proof.
  assert (forall audio : bool,
            Return (E:=exn)
              (inject_Z match parseInt (remove_non_digits duration) with
                        | Some n => if n =? 0 then 8 else n
                        | None => 8
                        end * (if audio then 0.40 else 0.20))%Q
            = Return (inject_Z (billed_seconds duration) * rate audio)%Q) as Hseconds.
  { intros audio. unfold billed_seconds, rate. rewrite parseInt_remove_non_digits.
    destruct (remove_non_digits duration) as [|d r] eqn:Hd.
    - unfold digits_integer. by rewrite Hd.
    - destruct (Z.eqb_spec (digits_integer duration) 0) as [->|Hne]; [done|].
      by rewrite bool_decide_eq_false_2. }
  unfold calculateCost. cbn [result_bind].
  destruct generateAudio as [| |b|n|s|l|o]; apply Hseconds.
Qed.


(** ** The provider adapter *)

Ltac result_inversion H :=
  repeat match type of H with
  | result_bind _ _ = Return _ =>
      let x := fresh "x" in
      let Hx := fresh "Hx" in
      apply result_bind_Return in H as (x & Hx & H)
  end.

(** The [catch] block always rethrows, and sends nothing. *)
Lemma generateVideoFromSegment_catch_throws (segment options : value) (error : exn)
    (t : list event) :
  exists e, generateVideoFromSegment_catch segment options error t = (Throw e, t).
Proof.
  unfold generateVideoFromSegment_catch, bind, lift, throw.
  destruct (result_bind (prop segment "segment_info") _); [|eauto].
  destruct (response error) as [[status data]|].
  - repeat (match goal with |- context [(?a =? ?b)%N] => destruct (a =? b)%N end);
      try (by eauto);
      match goal with |- context [result_bind ?r ?k] => destruct (result_bind r k) end;
      eauto.
  - case_bool_decide; [eauto|]. destruct (request error); eauto.
Qed.

Lemma invoked_app (t d : list event) : invoked (t ++ d) = invoked t ++ invoked d.
Proof. apply omap_app. Qed.

Lemma invoked_Invoke (segment options : value) (d : list event) :
  invoked (Invoke segment options :: d) = segment :: invoked d.
Proof. done. Qed.

Lemma invoked_SetTimeout (ms : nat) : invoked [SetTimeout ms : event] = [].
Proof. done. Qed.

(** The [try] block sends at most the one HTTP request. *)
Lemma generateVideoFromSegment_try_events (this : FalAIService) (segment options : value)
    (t : list event) :
  exists d, (generateVideoFromSegment_try this segment options t).2 = t ++ d
            /\ invoked d = [].
Proof.
  unfold generateVideoFromSegment_try, bind, lift, post.
  destruct (createVideoPrompt segment options) as [prompt|]; cbn [fst snd];
    [|by exists []; rewrite app_nil_r].
  destruct (requestData prompt options); cbn [fst snd];
    [|by exists []; rewrite app_nil_r].
  destruct (axiosInstance _ _ _ _); cbn [fst snd]; by eexists [_].
Qed.

(** What the adapter leaves in the log: its entry, then what the [try]
    block sent. *)
Lemma generateVideoFromSegment_events (this : FalAIService) (segment options : value)
    (t : list event) :
  exists d, (generateVideoFromSegment this segment options t).2
            = t ++ Invoke segment (default_options options) :: d
            /\ invoked d = [].
Proof.
  unfold generateVideoFromSegment, bind, emit, throw, lift, try_catch.
  destruct (negb (initialized this)); [by exists []|].
  destruct (result_bind (prop segment "segment_info") _); [|by exists []].
  destruct (generateVideoFromSegment_try_events this segment (default_options options)
              (t ++ [Invoke segment (default_options options)])) as (d & Hd & Hinv).
  destruct (generateVideoFromSegment_try _ _ _ _) as [[v|e] t'] eqn:Htry; cbn [snd] in Hd;
    subst t'.
  - exists d. by rewrite <- app_assoc.
  - destruct (generateVideoFromSegment_catch_throws segment (default_options options) e
                ((t ++ [Invoke segment (default_options options)]) ++ d)) as (e' & ->).
    exists d. by rewrite <- app_assoc.
Qed.

(** A video the adapter returns carries the number of its segment, the
    duration and the audio flag that were requested, and the cost that
    [calculateCost] gives for them. *)
Lemma generateVideoFromSegment_Return (this : FalAIService) (segment options : value)
    (t t' : list event) (v : video) :
  generateVideoFromSegment this segment options t = (Return v, t') ->
  segmentNumber v = prop_opt (prop_opt segment "segment_info") "segment_number" /\
  calculateCost (duration v) (metadata_generateAudio v) = Return (cost v).
Proof.
  unfold generateVideoFromSegment, bind, emit, throw, lift, try_catch.
  destruct (negb (initialized this)); [done|].
  destruct (result_bind (prop segment "segment_info") _); [|done].
  destruct (generateVideoFromSegment_try _ _ _ _) as [[v'|e] t2] eqn:Htry.
  - intros [= -> ->]. revert Htry.
    unfold generateVideoFromSegment_try, bind, lift, post.
    destruct (createVideoPrompt _ _) as [prompt|]; [|done].
    destruct (requestData prompt _); [|done].
    destruct (axiosInstance _ _ _ _); [|done].
    intros [= Hv _]. result_inversion Hv. injection Hv as <-. cbn.
    split; [|done]. by apply prop_Return in Hx as [_ ->].
  - destruct (generateVideoFromSegment_catch_throws segment (default_options options) e t2)
      as (e' & ->). done.
Qed.

(** ** The loop of [generateVideosForAllSegments] *)

Lemma process_segments_cons (this : FalAIService) (options : value) (len i : nat)
    (segment : value) (rest : list value) (results : list entry)
    (errors : list batch_error) (t : list event) :
  non_nullish segment ->
  process_segments this options len i (segment :: rest) results errors t
  = process_segments this options len (S i) rest
      (results ++ [entry_of i segment (iteration this options len i segment t).1])
      (errors ++ errors_from i [(iteration this options len i segment t).1])
      (iteration this options len i segment t).2.
Proof.
  intros Hseg. cbn [process_segments]. unfold bind at 1, try_catch, iteration, call_options.
  destruct (generateVideoFromSegment _ _ _ _) as [[v|e] t1] eqn:Hcall.
  - unfold bind at 1. rewrite Hcall. unfold bind at 1.
    destruct (Z.of_nat i <? Z.of_nat len - 1); cbn; by rewrite app_nil_r.
  - unfold bind at 1. rewrite Hcall. unfold bind, lift, ret.
    rewrite (prop_not_nullish segment) by done. done.
Qed.

(** The loop never throws on segments that are objects: it returns one
    entry per outcome and one error per failed call. *)
Lemma process_segments_spec (this : FalAIService) (options : value) (len i : nat)
    (rest : list value) (results : list entry) (errors : list batch_error)
    (t : list event) :
  Forall non_nullish rest ->
  process_segments this options len i rest results errors t
  = (Return (results ++ entries_from i rest (adapter_outcomes this options len i rest t),
             errors ++ errors_from i (adapter_outcomes this options len i rest t)),
     events_after this options len i rest t).
Proof.
  intros Hrest. revert i results errors t.
  induction Hrest as [|segment rest Hseg _ IH]; intros i results errors t.
  - cbn. by rewrite !app_nil_r.
  - rewrite process_segments_cons by done. rewrite IH.
    cbn [adapter_outcomes entries_from events_after].
    rewrite <- !app_assoc. repeat f_equal.
    by destruct (iteration this options len i segment t).1.
Qed.

Lemma length_adapter_outcomes (this : FalAIService) (options : value) (len i : nat)
    (rest : list value) (t : list event) :
  length (adapter_outcomes this options len i rest t) = length rest.
Proof. revert i t. induction rest as [|s r IH]; intros i t; cbn; [done|]. by rewrite IH. Qed.

Lemma length_entries_from (i : nat) (rest : list value) (outs : list (result exn video)) :
  length rest = length outs -> length (entries_from i rest outs) = length rest.
Proof.
  revert i outs. induction rest as [|s r IH]; intros i [|o outs]; cbn; try done.
  intros [= Hl]. by rewrite IH.
Qed.

Lemma entries_from_lookup (i k : nat) (rest : list value) (outs : list (result exn video))
    (segment : value) (o : result exn video) :
  rest !! k = Some segment -> outs !! k = Some o ->
  entries_from i rest outs !! k = Some (entry_of (i + k) segment o).
Proof.
  revert i k outs. induction rest as [|s r IH]; intros i [|k] [|o' outs]; cbn; try done.
  - intros [= ->] [= ->]. by rewrite Nat.add_0_r.
  - intros Hs Ho. replace (i + S k)%nat with (S i + k)%nat by lia. by apply IH.
Qed.

Lemma successes_Return {A} (a : A) (outs : list (result exn A)) :
  successes (Return a :: outs) = a :: successes outs.
Proof. done. Qed.

Lemma successes_Throw {A} (e : exn) (outs : list (result exn A)) :
  successes (Throw e :: outs) = successes outs.
Proof. done. Qed.

Lemma successes_failures {A} (outs : list (result exn A)) :
  (length (successes outs) + failures outs = length outs)%nat.
Proof.
  unfold failures. induction outs as [|[a|e] outs IH]; [done| |];
    rewrite filter_cons; case_decide; try done;
    rewrite ?successes_Return, ?successes_Throw; cbn [length]; lia.
Qed.

Lemma successCount_entries (i : nat) (rest : list value) (outs : list (result exn video)) :
  length rest = length outs ->
  length (filter (fun r => success r = true) (entries_from i rest outs))
  = length (successes outs).
Proof.
  revert i outs. induction rest as [|s r IH]; intros i [|o outs]; try done.
  intros [= Hl]. cbn [entries_from]. rewrite filter_cons.
  destruct o as [v|e]; case_decide; try done;
    rewrite ?successes_Return, ?successes_Throw; cbn [length]; by rewrite IH.
Qed.

Lemma length_errors_from (i : nat) (outs : list (result exn video)) :
  length (errors_from i outs) = failures outs.
Proof.
  unfold failures. revert i. induction outs as [|[v|e] outs IH]; intros i; [done| |];
    rewrite filter_cons; case_decide; try done;
    cbn [errors_from length]; by rewrite IH.
Qed.

(** Every segment is handed to the adapter, in order, whatever the
    outcomes of the calls before it. *)
Lemma invoked_iteration (this : FalAIService) (options : value) (len i : nat)
    (segment : value) (t : list event) :
  invoked (iteration this options len i segment t).2 = invoked t ++ [segment].
Proof.
  unfold iteration.
  destruct (generateVideoFromSegment_events this segment (call_options options i) t)
    as (d & Hd & Hinv).
  destruct (generateVideoFromSegment _ _ _ _) as [[v|e] t'] eqn:Hcall; cbn [snd] in *;
    subst t'; [destruct (Z.of_nat i <? Z.of_nat len - 1)|];
    rewrite ?invoked_app, invoked_Invoke, Hinv, ?invoked_SetTimeout;
    by rewrite ?app_nil_r.
Qed.

Lemma invoked_events_after (this : FalAIService) (options : value) (len i : nat)
    (rest : list value) (t : list event) :
  invoked (events_after this options len i rest t) = invoked t ++ rest.
Proof.
  revert i t. induction rest as [|s r IH]; intros i t; cbn [events_after].
  - by rewrite app_nil_r.
  - rewrite IH, invoked_iteration, <- app_assoc. done.
Qed.

(** ** Money *)






Global Instance whole_cents_proper : Proper (Qeq ==> iff) whole_cents.
Proof.
  intros p q Hpq. unfold whole_cents. split; intros [k Hk]; exists k.
  - by rewrite <- Hpq.
  - by rewrite Hpq.
Qed.







(** ** [generateVideosForAllSegments] *)

(** An initialized service given segments that are objects returns, and
    the result is this function of the outcomes of the adapter calls. *)
Lemma generateVideosForAllSegments_spec (this : FalAIService) (segments : list value)
    (options : value) (t : list event) :
  initialized this = true ->
  Forall non_nullish segments ->
  let outs := adapter_outcomes this options (length segments) 0 segments t in
  let results := entries_from 0 segments outs in
  generateVideosForAllSegments this segments options t
  = (Return
       {| batch_success :=
            bool_decide (0 < length (filter (fun r => success r = true) results))%nat;
          videos := results;
          totalSegments := length segments;
          successCount := length (filter (fun r => success r = true) results);
          failureCount := length (errors_from 0 outs);
          totalCost :=
            (inject_Z (Math_round
               (foldl (fun sum r => sum + entry_cost r) 0
                  (filter (fun r => success r && negb (Qeq_bool (entry_cost r) 0) = true)
                     results) * 100)) / 100)%Q;
          errors :=
            if bool_decide (0 < length (errors_from 0 outs))%nat
            then Some (errors_from 0 outs) else None |},
     events_after this options (length segments) 0 segments t).
Proof.
  intros Hinit Hsegments. unfold generateVideosForAllSegments, bind.
  rewrite Hinit. cbn [negb]. by rewrite process_segments_spec.
Qed.

Lemma errors_from_later (i j : nat) (outs : list (result exn video)) :
  (i < j)%nat ->
  filter (fun x => segmentIndex x = S i) (errors_from j outs) = [].
Proof.
  revert j. induction outs as [|[v|e] outs IH]; intros j Hij; cbn [errors_from]; [done| |].
  - apply IH. lia.
  - rewrite filter_cons. cbn [segmentIndex]. case_decide; [lia|]. apply IH. lia.
Qed.

Lemma errors_from_at (i j : nat) (outs : list (result exn video)) (e : exn) :
  (j <= i)%nat ->
  outs !! (i - j)%nat = Some (Throw e) ->
  filter (fun x => segmentIndex x = S i) (errors_from j outs)
  = [{| segmentIndex := S i; error := message e |}].
Proof.
  revert j. induction outs as [|o outs IH]; intros j Hji Hlook; [done|].
  destruct (decide (i = j)) as [->|Hne].
  - rewrite Nat.sub_diag in Hlook. injection Hlook as ->. cbn [errors_from].
    rewrite filter_cons. cbn [segmentIndex]. case_decide; [|lia].
    rewrite errors_from_later by lia. do 2 f_equal. lia.
  - replace (i - j)%nat with (S (i - S j)) in Hlook by lia. cbn in Hlook.
    destruct o as [v|e']; cbn [errors_from].
    + apply IH; [lia|done].
    + rewrite filter_cons. cbn [segmentIndex]. case_decide; [lia|]. apply IH; [lia|done].
Qed.

Lemma successes_nonempty {A} (outs : list (result exn A)) :
  (0 < length (successes outs))%nat <-> exists i a, outs !! i = Some (Return a).
Proof.
  induction outs as [|[a|e] outs IH]; rewrite ?successes_Return, ?successes_Throw.
  - split; [cbn; lia|]. by intros (i & a & ?).
  - split; [|cbn; lia]. intros _. by exists 0%nat, a.
  - rewrite IH. split.
    + intros (i & a & Hi). by exists (S i), a.
    + intros ([|i] & a & Hi); [done|]. by exists i, a.
Qed.

Lemma adapter_outcomes_segmentNumber (this : FalAIService) (options : value)
    (len i k : nat) (rest : list value) (t : list event) (segment : value) (v : video) :
  rest !! k = Some segment ->
  adapter_outcomes this options len i rest t !! k = Some (Return v) ->
  segmentNumber v = prop_opt (prop_opt segment "segment_info") "segment_number".
Proof.
  revert i k t. induction rest as [|s r IH]; intros i [|k] t; try done;
    cbn [adapter_outcomes].
  - intros [= ->] [= Hit]. unfold iteration in Hit.
    destruct (generateVideoFromSegment _ _ _ _) as [[v'|e'] t'] eqn:Hcall; [|done].
    injection Hit as ->. by apply generateVideoFromSegment_Return in Hcall as [? _].
  - intros Hs Hv. by eapply IH.
Qed.


(** C2: when the adapter call for the segment at index [i] fails, the
    batch still returns; every segment, the later ones included, is handed
    to the adapter, in order; [errors] has exactly one entry with
    [segmentIndex = i + 1], and it carries the message; the entry of
    [videos] at index [i] has [success = false] and the message. *)
Theorem generateVideosForAllSegments_continues (this : FalAIService)
    (segments : list value) (options : value) (t : list event) (i : nat) (e : exn) :
  initialized this = true ->
  Forall non_nullish segments ->
  adapter_outcomes this options (length segments) 0 segments t !! i = Some (Throw e) ->
  exists b t',
    generateVideosForAllSegments this segments options t = (Return b, t') /\
    invoked t' = invoked t ++ segments /\
    (exists errs, errors b = Some errs /\
       filter (fun x => segmentIndex x = S i) errs
       = [{| segmentIndex := S i; error := message e |}]) /\
    (exists segmentNumber, videos b !! i = Some (Failed segmentNumber (message e))).
Proof.
  intros Hinit Hsegments Hi.
  eexists _, _. split; [by apply generateVideosForAllSegments_spec|].
  cbn [errors videos].
  set (outs := adapter_outcomes this options (length segments) 0 segments t) in *.
  split; [apply invoked_events_after|].
  pose proof (errors_from_at i 0 outs e) as Hat.
  rewrite Nat.sub_0_r in Hat. specialize (Hat ltac:(lia) Hi).
  split.
  - exists (errors_from 0 outs). split; [|done].
    destruct (errors_from 0 outs); [done|]. by rewrite bool_decide_eq_true_2 by (cbn; lia).
  - assert (is_Some (segments !! i)) as [segment Hsegment].
    { apply lookup_lt_is_Some. rewrite <- (length_adapter_outcomes this options
        (length segments) 0 segments t). by eapply lookup_lt_Some. }
    eexists. by rewrite (entries_from_lookup 0 i segments outs segment (Throw e)).
Qed.

(** C9: the batch returns; [videos] has one entry per segment, the entry
    at each index being the one of the segment at that index (a generated
    video carries that segment's number); [totalSegments] is the number of
    segments; and [success] holds exactly when some call succeeded. *)
Theorem generateVideosForAllSegments_shape (this : FalAIService)
    (segments : list value) (options : value) (t : list event) :
  initialized this = true ->
  Forall non_nullish segments ->
  let outs := adapter_outcomes this options (length segments) 0 segments t in
  exists b t',
    generateVideosForAllSegments this segments options t = (Return b, t') /\
    length (videos b) = length segments /\
    (forall i segment, segments !! i = Some segment ->
       exists o, outs !! i = Some o /\ videos b !! i = Some (entry_of i segment o) /\
         forall v, o = Return v ->
           segmentNumber v = prop_opt (prop_opt segment "segment_info") "segment_number") /\
    totalSegments b = length segments /\
    (batch_success b = true <-> exists i v, outs !! i = Some (Return v)).
Proof.
  intros Hinit Hsegments outs.
  assert (length segments = length outs) as Hlen
    by (symmetry; apply length_adapter_outcomes).
  eexists _, _. split; [by apply generateVideosForAllSegments_spec|].
  cbn [videos totalSegments batch_success]. fold outs.
  split; [by apply length_entries_from|]. split; [|split; [done|]].
  - intros i segment Hsegment.
    assert (is_Some (outs !! i)) as [o Ho].
    { apply lookup_lt_is_Some. rewrite <- Hlen. by eapply lookup_lt_Some. }
    exists o. split; [done|]. split.
    + by rewrite (entries_from_lookup 0 i segments outs segment o).
    + intros v ->. by eapply adapter_outcomes_segmentNumber.
  - rewrite bool_decide_eq_true, successCount_entries by done.
    apply successes_nonempty.
Qed.

(** ** The route *)

(** A segment that passes the route's validation is an object, so the
    service is only ever handed objects by the route. *)
Lemma is_invalid_segment_false (segment : value) :
  is_invalid_segment segment = Return false -> exists o, segment = VObj o.
Proof. destruct segment; try done. by eexists. Qed.

Lemma valid_segment_non_nullish (segment : value) :
  is_invalid_segment segment = Return false -> non_nullish segment.
Proof. intros [o ->]%is_invalid_segment_false. by split. Qed.

(** ** Translation of failures by the adapter *)

(** A request that the client rejects makes the [try] block throw the
    client's error, and the [catch] block then decides what is thrown. *)
Lemma generateVideoFromSegment_try_rejected (this : FalAIService)
    (segment options body : value) (prompt m : jsstring) (c : option jsstring) (r : bool)
    (rs : option (N * value)) (t : list event) :
  createVideoPrompt segment options = Return prompt ->
  requestData prompt options = Return body ->
  axiosInstance this (length (filter (fun e => is_post e = true) t)) (lit "/fast") body
  = Rejected m c r rs ->
  generateVideoFromSegment_try this segment options t
  = (Throw (AxiosError m c r rs), t ++ [HttpPost (lit "/fast") body]).
Proof.
  intros Hprompt Hbody Hpost.
  unfold generateVideoFromSegment_try, bind, lift, post.
  by rewrite Hprompt, Hbody, Hpost.
Qed.

Lemma createVideoPrompt_Return_segment (segment options : value) (prompt : jsstring) :
  createVideoPrompt segment options = Return prompt -> non_nullish segment.
Proof.
  unfold createVideoPrompt. intros Hp.
  apply result_bind_Return in Hp as (info & Hinfo & _).
  by apply prop_Return in Hinfo as [? _].
Qed.

Lemma generateVideoFromSegment_rejected (this : FalAIService)
    (segment options body : value) (label prompt m : jsstring) (c : option jsstring)
    (r : bool) (rs : option (N * value)) (t : list event) :
  let options' := default_options options in
  let entered := t ++ [Invoke segment options'] in
  initialized this = true ->
  to_string (prop_opt (prop_opt segment "segment_info") "segment_number") = Return label ->
  createVideoPrompt segment options' = Return prompt ->
  requestData prompt options' = Return body ->
  axiosInstance this (length (filter (fun e => is_post e = true) entered)) (lit "/fast") body
  = Rejected m c r rs ->
  generateVideoFromSegment this segment options t
  = generateVideoFromSegment_catch segment options' (AxiosError m c r rs)
      (entered ++ [HttpPost (lit "/fast") body]).
Proof.
  intros options' entered Hinit Hlabel Hprompt Hbody Hpost. subst options' entered.
  pose proof (createVideoPrompt_Return_segment _ _ _ Hprompt) as Hsegment.
  unfold generateVideoFromSegment, bind at 1, emit. rewrite Hinit. cbn [negb].
  unfold bind, lift, try_catch. rewrite (prop_not_nullish segment) by done.
  cbn [result_bind]. rewrite Hlabel.
  by rewrite (generateVideoFromSegment_try_rejected this segment _ body prompt
                m c r rs _ Hprompt Hbody Hpost).
Qed.

Section Translation.
Variables (segment options : value) (prompt : jsstring) (t : list event).
Variables (m : jsstring) (c : option jsstring) (r : bool).

(** The request was sent, so the prompt could be built. *)
Hypothesis prompt_built : createVideoPrompt segment options = Return prompt.

Lemma logError_arguments :
  result_bind (prop segment "segment_info") (fun _ => createVideoPrompt segment options)
  = Return prompt.
Proof using prompt_built.
  destruct (prop segment "segment_info") as [info|e] eqn:Hinfo; [done|].
  unfold createVideoPrompt in prompt_built. by rewrite Hinfo in prompt_built.
Qed.

Lemma catch_401 (data : value) :
  generateVideoFromSegment_catch segment options (AxiosError m c r (Some (401%N, data))) t
  = (Throw (Error (lit "Invalid API key. Please check your FALAI_API_KEY")), t).
Proof using prompt_built.
  unfold generateVideoFromSegment_catch, bind, lift. by rewrite logError_arguments.
Qed.

Lemma catch_402 (data : value) :
  generateVideoFromSegment_catch segment options (AxiosError m c r (Some (402%N, data))) t
  = (Throw (Error (lit "Insufficient credits. Please add funds to your FalAI account")), t).
Proof using prompt_built.
  unfold generateVideoFromSegment_catch, bind, lift. by rewrite logError_arguments.
Qed.

Lemma catch_429 (data : value) :
  generateVideoFromSegment_catch segment options (AxiosError m c r (Some (429%N, data))) t
  = (Throw (Error (lit "Rate limit exceeded. Please wait and try again")), t).
Proof using prompt_built.
  unfold generateVideoFromSegment_catch, bind, lift. by rewrite logError_arguments.
Qed.

Lemma catch_500 (data : value) :
  generateVideoFromSegment_catch segment options (AxiosError m c r (Some (500%N, data))) t
  = (Throw (Error (lit "FalAI service error. Please try again later")), t).
Proof using prompt_built.
  unfold generateVideoFromSegment_catch, bind, lift. by rewrite logError_arguments.
Qed.

Lemma catch_400 (data : value) (detail : jsstring) :
  non_nullish data ->
  to_string (or_else (prop_opt data "error") (VStr (lit "Bad request parameters")))
  = Return detail ->
  generateVideoFromSegment_catch segment options (AxiosError m c r (Some (400%N, data))) t
  = (Throw (Error (lit "Invalid request: " ++ detail)), t).
Proof using prompt_built.
  intros Hdata Hdetail.
  unfold generateVideoFromSegment_catch, bind, lift. rewrite logError_arguments.
  cbn [response N.eqb Pos.eqb]. rewrite (prop_not_nullish data) by done.
  cbn [result_bind]. by rewrite Hdetail.
Qed.

(** A 400 whose body is [null] escapes the translation. *)
Lemma catch_400_null :
  generateVideoFromSegment_catch segment options (AxiosError m c r (Some (400%N, VNull))) t
  = (Throw (TypeError (lit "Cannot read properties of null (reading 'error')")), t).
Proof using prompt_built.
  unfold generateVideoFromSegment_catch, bind, lift. by rewrite logError_arguments.
Qed.

Lemma catch_other_status (status : N) (data : value) (detail : jsstring) :
  status <> 400%N -> status <> 401%N -> status <> 402%N -> status <> 429%N ->
  status <> 500%N ->
  non_nullish data ->
  to_string (or_else (prop_opt data "error") (VStr (lit "Unknown error"))) = Return detail ->
  generateVideoFromSegment_catch segment options (AxiosError m c r (Some (status, data))) t
  = (Throw (Error (lit "FalAI API error (" ++ decimal status ++ lit "): " ++ detail)), t).
Proof using prompt_built.
  intros H400 H401 H402 H429 H500 Hdata Hdetail.
  unfold generateVideoFromSegment_catch, bind, lift. rewrite logError_arguments.
  cbn [response].
  repeat match goal with
         | |- context [(status =? ?n)%N] => destruct (N.eqb_spec status n); [done|]
         end.
  rewrite (prop_not_nullish data) by done. cbn [result_bind]. by rewrite Hdetail.
Qed.

Lemma catch_timeout :
  generateVideoFromSegment_catch segment options
    (AxiosError m (Some (lit "ECONNABORTED")) r None) t
  = (Throw (Error (lit "Request timeout. Video generation is taking longer than expected")),
     t).
Proof using prompt_built.
  unfold generateVideoFromSegment_catch, bind, lift. by rewrite logError_arguments.
Qed.

Lemma catch_network :
  c <> Some (lit "ECONNABORTED") ->
  generateVideoFromSegment_catch segment options (AxiosError m c true None) t
  = (Throw (Error (lit "Network error. Please check your internet connection")), t).
Proof using prompt_built.
  intros Hc. unfold generateVideoFromSegment_catch, bind, lift. rewrite logError_arguments.
  cbn [response code request]. by rewrite bool_decide_eq_false_2.
Qed.

End Translation.

(** ** The error-handling middleware *)

(** C6: an error that reaches the middleware is answered with an
    identifier drawn at random for it; in development the answer carries
    the error's own message and its stack, otherwise the fixed message and
    no stack. *)
Theorem error_middleware_reply (env : gmap string string) (random : jsstring)
    (err req : value) :
  non_nullish err ->
  non_nullish req ->
  exists status body,
    error_middleware env random err req = Return (status, VObj body) /\
    own_property (lit "errorId") body = Some (VStr (substring_from 7 random)) /\
    (env !! "NODE_ENV"%string = Some "development"%string ->
     own_property (lit "message") body = Some (prop_opt err "message") /\
     own_property (lit "stack") body = Some (prop_opt err "stack")) /\
    (env !! "NODE_ENV"%string <> Some "development"%string ->
     own_property (lit "message") body = Some (VStr (lit "Something went wrong")) /\
     own_property (lit "stack") body = None).
Proof.
  intros Herr Hreq. unfold error_middleware.
  rewrite !(prop_not_nullish err), !(prop_not_nullish req) by done.
  cbn [result_bind]. eexists _, _. split; [done|].
  case_bool_decide as Henv; (split; [done|]); split; done.
Qed.

End Properties.

(** ** [GET /api/health] *)

Lemma env_truthy_present (env : gmap string string) (name : string) :
  env_truthy env name = true <-> credential_present env name.
Proof.
  unfold env_truthy, credential_present. destruct (env !! name) as [v|].
  - rewrite negb_true_iff, bool_decide_eq_false. split.
    + intros Hv. by exists v.
    + by intros (v' & [= <-] & Hv).
  - split; [done|]. by intros (v & ? & _).
Qed.

(** C4: each flag of [apis] tells whether the credential of its provider is
    present; with no video-provider credential the three video flags are
    false while [openai] still tells whether the mandatory one is set. *)
Theorem api_health_flags (env : gmap string string) (index_exists : bool) :
  let flags := health_apis (api_health env index_exists) in
  (openai flags = true <-> credential_present env "OPENAI_API_KEY") /\
  (gemini flags = true <-> credential_present env "GOOGLE_GEMINI_API_KEY") /\
  (vertex flags = true <-> credential_present env "GOOGLE_APPLICATION_CREDENTIALS") /\
  (kieai flags = true <-> credential_present env "KIEAI_API_KEY") /\
  (~ credential_present env "GOOGLE_GEMINI_API_KEY" ->
   ~ credential_present env "GOOGLE_APPLICATION_CREDENTIALS" ->
   ~ credential_present env "KIEAI_API_KEY" ->
   gemini flags = false /\ vertex flags = false /\ kieai flags = false /\
   (openai flags = true <-> credential_present env "OPENAI_API_KEY")).
Proof.
  cbn [api_health health_apis openai gemini vertex kieai].
  repeat split; try apply env_truthy_present;
    apply not_true_is_false; by rewrite env_truthy_present.
Qed.

(** The scenario of the specification: no video-provider credential. *)
Example health_without_video_credentials :
  health_apis (api_health {[ "OPENAI_API_KEY"%string := "sk-test"%string ]} true)
  = {| openai := true; gemini := false; vertex := false; kieai := false |}
  /\ health_apis (api_health ∅ true)
     = {| openai := false; gemini := false; vertex := false; kieai := false |}
  /\ health_apis (api_health {[ "KIEAI_API_KEY"%string := ""%string ]} true)
     = {| openai := false; gemini := false; vertex := false; kieai := false |}.
Proof. by vm_compute. Qed.

(** X20: the server only runs with the mandatory credential, so a health
    answer that is served always has [openai] set. *)
Lemma served_health_has_openai (env : gmap string string) (index_exists : bool) :
  validateEnvironment_errors env = [] ->
  openai (health_apis (api_health env index_exists)) = true.
Proof.
  unfold validateEnvironment_errors. cbn. by destruct (env_truthy env "OPENAI_API_KEY").
Qed.

(** ** The segment pipeline *)

Section PipelineProperties.
Variable description : Type.
Variable split : jsstring -> list jsstring.
Variable provider : nat -> text_request description -> description + N.
Variable continuity_state : description -> description.

(** C7: a Script shorter than 50 characters is rejected with a
    [ValidationError], answered 400, and no provider call is issued. *)
Theorem short_script_rejected (script : jsstring) (fmt : format) :
  (length script < 50)%nat ->
  run_pipeline description split provider continuity_state script fmt
  = (inl ValidationError, []) /\
  http_status ValidationError = 400%N.
Proof.
  intros Hshort. unfold run_pipeline.
  by destruct (Nat.ltb_spec (length script) 50); [|lia].
Qed.

End PipelineProperties.

(** ** Scenarios of the fan-out *)

Lemma three_segments_objects : Forall non_nullish three_segments.
Proof. repeat constructor; done. Qed.

(** The scenario of the specification: three segments, the second call
    answered 429. Two successes, one failure, one error for segment index
    2, and the third call is made. *)
Example second_of_three_fails :
  exists b t,
    generateVideosForAllSegments (configured (fails_at 1)) three_segments (VObj []) []
    = (Return b, t) /\
    successCount b = 2%nat /\ failureCount b = 1%nat /\
    errors b = Some [ {| segmentIndex := 2;
                         error := lit "Rate limit exceeded. Please wait and try again" |} ] /\
    outline t = [ "invoke"; "post"; "timeout"; "invoke"; "post"; "invoke"; "post" ]%string /\
    (totalCost b == 6.4)%Q.
Proof. eexists _, _. split; [by vm_compute|]. by vm_compute. Qed.



Lemma continues_witness :
  let this := configured (fails_at 1) in
  let e : exn Z := Error (lit "Rate limit exceeded. Please wait and try again") in
  initialized this = true /\
  Forall non_nullish three_segments /\
  adapter_outcomes this (VObj []) 3 0 three_segments [] !! 1%nat = Some (Throw e) /\
  exists b t',
    generateVideosForAllSegments this three_segments (VObj []) [] = (Return b, t') /\
    invoked t' = three_segments /\
    (exists errs, errors b = Some errs /\
       filter (fun x => segmentIndex x = 2%nat) errs
       = [{| segmentIndex := 2; error := message e |}]) /\
    (exists segmentNumber, videos b !! 1%nat = Some (Failed segmentNumber (message e))).
Proof.
  split; [reflexivity|]. split; [apply three_segments_objects|]. split; [by vm_compute|].
  apply (generateVideosForAllSegments_continues (configured (fails_at 1))
           three_segments (VObj []) [] 1
           (Error (lit "Rate limit exceeded. Please wait and try again")));
    [reflexivity|apply three_segments_objects|by vm_compute].
Defined.

Lemma shape_witness :
  let this := configured (fails_at 1) in
  let outs := adapter_outcomes this (VObj []) 3 0 three_segments [] in
  initialized this = true /\
  Forall non_nullish three_segments /\
  exists b t',
    generateVideosForAllSegments this three_segments (VObj []) [] = (Return b, t') /\
    length (videos b) = 3%nat /\
    (forall i segment, three_segments !! i = Some segment ->
       exists o, outs !! i = Some o /\ videos b !! i = Some (entry_of i segment o) /\
         forall v, o = Return v ->
           segmentNumber v = prop_opt (prop_opt segment "segment_info") "segment_number") /\
    totalSegments b = 3%nat /\
    (batch_success b = true <-> exists i v, outs !! i = Some (Return v)).
Proof.
  split; [reflexivity|]. split; [apply three_segments_objects|].
  apply (generateVideosForAllSegments_shape (configured (fails_at 1))
           three_segments (VObj []) []);
    [reflexivity|apply three_segments_objects].
Defined.


Lemma error_middleware_witness :
  let env : gmap string string := {[ "NODE_ENV"%string := "development"%string ]} in
  non_nullish boom /\
  non_nullish get_health /\
  exists status body,
    error_middleware env (lit "0.4fzyo82mvyr") boom get_health = Return (status, VObj body) /\
    own_property (lit "errorId") body = Some (VStr (lit "82mvyr")) /\
    (env !! "NODE_ENV"%string = Some "development"%string ->
     own_property (lit "message") body = Some (VStr (lit "boom")) /\
     own_property (lit "stack") body = Some (VStr (lit "Error: boom at x.js:1"))) /\
    (env !! "NODE_ENV"%string <> Some "development"%string ->
     own_property (lit "message") body = Some (VStr (lit "Something went wrong")) /\
     own_property (lit "stack") body = None).
Proof.
  split; [done|]. split; [done|].
  apply (error_middleware_reply {[ "NODE_ENV"%string := "development"%string ]}
           (lit "0.4fzyo82mvyr") boom get_health); done.
Defined.

Lemma short_script_witness :
  (length (lit "Buy our new shoes today") < 50)%nat /\
  run_pipeline unit (fun _ => []) (fun _ _ => inl tt) (fun d => d)
    (lit "Buy our new shoes today") standard
  = (inl ValidationError, []) /\
  http_status ValidationError = 400%N.
Proof.
  split; [cbn; lia|].
  apply (short_script_rejected unit (fun _ => []) (fun _ _ => inl tt) (fun d => d)
           (lit "Buy our new shoes today") standard).
  cbn; lia.
Defined.

(** ** Where the code departs from the specification *)

(** C8: the delay is awaited after a call that succeeded, not after one
    that failed. With two segments, the first call answered 429, the second
    request follows the first with no timer between them; when the first
    call succeeds the timer is there. *)
Theorem no_delay_after_failed_call :
  let segments := [plain_segment 1 "Hi there"; plain_segment 2 "This is it"] in
  outline (generateVideosForAllSegments (configured (fails_at 0)) segments (VObj []) []).2
  = [ "invoke"; "post"; "invoke"; "post" ]%string /\
  outline (generateVideosForAllSegments (configured always_ready) segments (VObj []) []).2
  = [ "invoke"; "post"; "timeout"; "invoke"; "post" ]%string.
Proof. split; by vm_compute. Qed.


(** The other statuses the route can select are selected. *)
Lemma statusCode_for_normalized :
  statusCode_for (lit "Invalid API key. Please check your FALAI_API_KEY") = 401%N /\
  statusCode_for (lit "Insufficient credits. Please add funds to your FalAI account") = 402%N /\
  statusCode_for (lit "Invalid request: Bad request parameters") = 400%N /\
  statusCode_for (lit "Request timeout. Video generation is taking longer than expected")
  = 500%N /\
  statusCode_for (lit "Network error. Please check your internet connection") = 500%N /\
  statusCode_for (lit "FalAI service error. Please try again later") = 500%N.
Proof. repeat split; by vm_compute. Qed.

(** * Further properties of the code *)

Ltac bind_inversion H :=
  repeat match type of H with
  | result_bind _ _ = Return _ =>
      let x := fresh "x" in
      let Hx := fresh "Hx" in
      apply result_bind_Return in H as (x & Hx & H)
  end.

Section Further.
Context {number : Type} `{JSNumber number}.
Local Abbreviation value := (value number).
Local Abbreviation exn := (exn number).

(** ** Objects *)







(** ** What evaluation can throw *)

Lemma value_ind_elements (P : value -> Prop) :
  P VUndef -> P VNull -> (forall b, P (VBool b)) -> (forall n, P (VNum n)) ->
  (forall s, P (VStr s)) ->
  (forall l, Forall P l -> P (VArr l)) ->
  (forall o, P (VObj o)) ->
  forall v, P v.
Proof.
  intros HU HN HB HNum HS HA HO. fix IH 1.
  intros [| |b|n|s|l|o];
    [exact HU|exact HN|apply HB|apply HNum|apply HS| |apply HO].
  apply HA. induction l as [|x l IHl]; constructor; [apply IH|apply IHl].
Qed.

Lemma throws_plain_bind {A B} (r : result exn A) (k : A -> result exn B) :
  throws_plain r -> (forall a, throws_plain (k a)) -> throws_plain (result_bind r k).
Proof. destruct r; cbn; auto. Qed.

Lemma prop_plain (v : value) (k : string) : throws_plain (prop v k).
Proof. by destruct v. Qed.

Lemma to_string_plain (v : value) : throws_plain (to_string v).
Proof.
  induction v as [| |[]| | |l IH|o] using value_ind_elements; try done.
  - cbn [to_string]. induction IH as [|x l Hx Hl IHl]; [done|].
    assert (throws_plain match x with
                         | VUndef | VNull => Return []
                         | _ => to_string x
                         end) as Hx' by by destruct x.
    destruct l as [|y l]; [done|].
    apply throws_plain_bind; [done|]. intros s.
    apply throws_plain_bind; [exact IHl|done].
  - cbn [to_string]. by destruct (own_property _ o).
Qed.

Lemma Object_entries_plain (v : value) : throws_plain (Object_entries v).
Proof. by destruct v. Qed.

Lemma map_result_plain {A B} (f : A -> result exn B) (l : list A) :
  (forall a, throws_plain (f a)) -> throws_plain (map_result f l).
Proof.
  intros Hf. induction l as [|x l IH]; [done|]. cbn [map_result].
  apply throws_plain_bind; [done|]. intros y. by apply throws_plain_bind.
Qed.

Ltac plain :=
  repeat first
    [ apply prop_plain | apply to_string_plain | apply Object_entries_plain
    | apply map_result_plain; intros [??]
    | apply throws_plain_bind; [|intros ?]
    | done ].

Lemma createVideoPrompt_plain (segment options : value) :
  throws_plain (createVideoPrompt segment options).
Proof.
  unfold createVideoPrompt. apply throws_plain_bind; [apply prop_plain|]. intros info.
  apply throws_plain_bind; [|done].
  destruct (truthy _); plain.
Qed.

Lemma requestData_plain (prompt : jsstring) (options : value) :
  throws_plain (requestData prompt options).
Proof. unfold requestData. plain. Qed.

Lemma calculateCost_plain (duration generateAudio : value) :
  throws_plain (calculateCost duration generateAudio).
Proof. unfold calculateCost. by destruct duration. Qed.

(** ** The provider adapter, further *)

Local Abbreviation event := (event number).
Local Abbreviation FalAIService := (FalAIService number).
Local Abbreviation video := (video number).
Local Abbreviation entry := (entry number).

Lemma generateVideoFromSegment_catch_plain (segment options : value) (error : exn)
    (t : list event) :
  throws_plain (generateVideoFromSegment_catch segment options error t).1.
Proof.
  unfold generateVideoFromSegment_catch, bind, lift, throw.
  assert (throws_plain (result_bind (prop segment "segment_info")
                          (fun _ => createVideoPrompt segment options))) as Hlog
    by (apply throws_plain_bind; [apply prop_plain|intros; apply createVideoPrompt_plain]).
  destruct (result_bind (prop segment "segment_info") _) as [p|e]; [|exact Hlog].
  destruct (response error) as [[status data]|].
  - repeat (match goal with |- context [(?a =? ?b)%N] => destruct (a =? b)%N end);
      try done;
      match goal with
      | |- context [result_bind ?r ?k] =>
          assert (throws_plain (result_bind r k)) as Hdetail by plain;
          destruct (result_bind r k)
      end; done.
  - case_bool_decide; [done|]. by destruct (request error).
Qed.

(** What a returned video tells about the call that made it. *)
Lemma generateVideoFromSegment_Return_inv (this : FalAIService) (segment options : value)
    (t t' : list event) (v : video) :
  generateVideoFromSegment this segment options t = (Return v, t') ->
  exists prompt body data,
    initialized this = true /\
    createVideoPrompt segment (default_options options) = Return prompt /\
    requestData prompt (default_options options) = Return body /\
    axiosInstance this
      (length (posts (t ++ [Invoke segment (default_options options)])))
      (lit "/fast") body = Resolved data /\
    t' = t ++ [Invoke segment (default_options options); HttpPost (lit "/fast") body] /\
    non_nullish data /\
    metadata_prompt v = prompt /\
    duration v = prop_opt body "duration" /\
    metadata_generateAudio v = prop_opt body "generate_audio" /\
    videoUrl v = prop_opt (prop_opt data "video") "url" /\
    status v = or_else (prop_opt data "status") (VStr (lit "completed")) /\
    requestId v = prop_opt data "request_id".
Proof.
  unfold generateVideoFromSegment, bind, emit, throw, lift, try_catch.
  destruct (initialized this) eqn:Hinit; [|done]. cbn [negb].
  destruct (result_bind (prop segment "segment_info") _); [|done].
  destruct (generateVideoFromSegment_try _ _ _ _) as [[v'|e] t2] eqn:Htry.
  - intros [= -> ->]. revert Htry.
    unfold generateVideoFromSegment_try, bind, lift, post.
    destruct (createVideoPrompt _ _) as [prompt|] eqn:Hprompt; [|done].
    destruct (requestData prompt _) as [body|] eqn:Hbody; [|done].
    destruct (axiosInstance _ _ _ _) as [data|] eqn:Hpost; [|done].
    intros [= Hv <-]. bind_inversion Hv. injection Hv as <-.
    cbn [videoUrl status duration requestId metadata_prompt metadata_generateAudio].
    exists prompt, body, data.
    apply prop_Return in Hx0 as [Hdata ->].
    apply prop_Return in Hx1 as [_ ->]. apply prop_Return in Hx3 as [_ ->].
    split_and!; try done. by rewrite <- app_assoc.
  - destruct (generateVideoFromSegment_catch_throws segment (default_options options) e t2)
      as (e' & ->). done.
Qed.


(** X1: whatever [generateVideoFromSegment] throws is an [Error] or a
    [TypeError]: the rejection of the HTTP client never leaves the adapter
    as it is. *)
Theorem generateVideoFromSegment_throws_plain (this : FalAIService)
    (segment options : value) (t : list event) :
  throws_plain (generateVideoFromSegment this segment options t).1.
Proof.
  unfold generateVideoFromSegment, bind, emit, throw, lift, try_catch.
  destruct (negb (initialized this)); [done|].
  assert (throws_plain (result_bind (prop segment "segment_info")
            (fun segment_info => to_string (prop_opt segment_info "segment_number"))))
    as Hlabel by plain.
  destruct (result_bind (prop segment "segment_info") _); [|exact Hlabel].
  destruct (generateVideoFromSegment_try _ _ _ _) as [[v|e] t2]; [done|].
  apply generateVideoFromSegment_catch_plain.
Qed.

(** X2: a call returns a video only after exactly one request, a POST to
    [/fast] that the provider resolved, with a body that is not [null]; the
    video reports [data.video?.url], the status of the answer or
    ["completed"], and the request id of that answer. *)
Theorem generateVideoFromSegment_success_after_post (this : FalAIService)
    (segment options : value) (t t' : list event) (v : video) :
  generateVideoFromSegment this segment options t = (Return v, t') ->
  exists body data,
    t' = t ++ [Invoke segment (default_options options); HttpPost (lit "/fast") body] /\
    axiosInstance this (length (posts t)) (lit "/fast") body = Resolved data /\
    non_nullish data /\
    videoUrl v = prop_opt (prop_opt data "video") "url" /\
    status v = or_else (prop_opt data "status") (VStr (lit "completed")) /\
    requestId v = prop_opt data "request_id".
Proof.
  intros (prompt & body & data & _ & _ & _ & Hpost & -> & Hdata & _ & _ & _ & ? & ? & ?)
    %generateVideoFromSegment_Return_inv.
  exists body, data. split; [done|]. split; [|done].
  revert Hpost. unfold posts. rewrite filter_app, length_app.
  change (length (filter _ [Invoke _ _])) with 0%nat. by rewrite Nat.add_0_r.
Qed.

(** X3: when the prompt cannot be built the call throws that very error,
    not a normalized one, and no request is sent. *)
Theorem generateVideoFromSegment_prompt_failure (this : FalAIService)
    (segment options : value) (label : jsstring) (e : exn) (t : list event) :
  initialized this = true ->
  to_string (prop_opt (prop_opt segment "segment_info") "segment_number") = Return label ->
  non_nullish segment ->
  createVideoPrompt segment (default_options options) = Throw e ->
  generateVideoFromSegment this segment options t
  = (Throw e, t ++ [Invoke segment (default_options options)]).
Proof.
  intros Hinit Hlabel Hsegment Hprompt.
  unfold generateVideoFromSegment, bind at 1, emit. rewrite Hinit. cbn [negb].
  unfold bind, lift, try_catch. rewrite (prop_not_nullish segment) by done.
  cbn [result_bind]. rewrite Hlabel.
  unfold generateVideoFromSegment_try, bind, lift. rewrite Hprompt.
  unfold generateVideoFromSegment_catch, bind, lift.
  rewrite (prop_not_nullish segment) by done. cbn [result_bind]. by rewrite Hprompt.
Qed.


(** ** [calculateCost], further *)

Lemma digit_value_range (c : code_unit) : is_digit c = true -> 0 <= digit_value c <= 9.
Proof.
  unfold is_digit, digit_value, code_unit in *.
  intros [Hlo Hhi]%andb_true_iff. apply N.leb_le in Hlo, Hhi. lia.
Qed.

Lemma numeral_value_nonneg (ds : jsstring) :
  Forall (fun c => is_digit c = true) ds -> 0 <= numeral_value ds.
Proof.
  induction 1 as [|d r Hd _ IH]; cbn [numeral_value]; [lia|].
  apply digit_value_range in Hd.
  assert (0 <= 10 ^ Z.of_nat (length r)) by (apply Z.pow_nonneg; lia). nia.
Qed.

Lemma billed_seconds_positive (s : jsstring) : 1 <= billed_seconds s.
Proof.
  unfold billed_seconds. case_bool_decide as Hz; [lia|].
  assert (0 <= digits_integer s); [|lia].
  apply numeral_value_nonneg. unfold remove_non_digits.
  apply Forall_forall. by intros c [? _]%list_elem_of_filter.
Qed.

Lemma price_at_least_a_second (seconds : Z) (audio : bool) :
  1 <= seconds -> (0.20 <= inject_Z seconds * rate audio)%Q.
Proof. intros Hs. destruct audio; unfold Qle, rate; simpl; lia. Qed.

(** X5: [calculateCost] returns exactly when the duration is a string,
    and then the cost is at least 0.20 (one second without audio): it is
    never zero or negative. For any other duration it throws a
    [TypeError]. *)
Theorem calculateCost_defined_on_strings (duration generateAudio : value) :
  match duration with
  | VStr _ => exists c, calculateCost duration generateAudio = Return c /\ (0.20 <= c)%Q
  | _ => exists m, calculateCost duration generateAudio = Throw (TypeError m)
  end.
Proof.
  destruct duration; try (by eexists).
  eexists. split; [apply calculateCost_string|].
  apply price_at_least_a_second, billed_seconds_positive.
Qed.

(** ** The fan-out, further *)

Lemma generateVideoFromSegment_try_posts (this : FalAIService) (segment options : value)
    (t : list event) :
  (generateVideoFromSegment_try this segment options t).2 = t \/
  exists body,
    (generateVideoFromSegment_try this segment options t).2
    = t ++ [HttpPost (lit "/fast") body].
Proof.
  unfold generateVideoFromSegment_try, bind, lift, post.
  destruct (createVideoPrompt segment options) as [prompt|]; [|by left].
  destruct (requestData prompt options) as [body|]; [|by left].
  right. exists body. by destruct (axiosInstance _ _ _ _).
Qed.

(** The events of one call: the entry, then at most the one request. *)
Lemma generateVideoFromSegment_sent (this : FalAIService) (segment options : value)
    (t : list event) :
  exists d,
    (generateVideoFromSegment this segment options t).2
    = t ++ Invoke segment (default_options options) :: d /\
    (d = [] \/ exists body, d = [HttpPost (lit "/fast") body]) /\
    (succeeded (generateVideoFromSegment this segment options t).1 = true -> d <> []).
Proof.
  destruct (generateVideoFromSegment this segment options t) as [[v|e] t'] eqn:Hcall.
  - apply generateVideoFromSegment_Return_inv in Hcall
      as (prompt & body & data & _ & _ & _ & _ & -> & _).
    exists [HttpPost (lit "/fast") body]. split; [done|]. split; [by eauto|done].
  - assert (t' = t ++ [Invoke segment (default_options options)] \/
            exists body,
              t' = t ++ [Invoke segment (default_options options);
                         HttpPost (lit "/fast") body]) as Ht'.
    { revert Hcall. unfold generateVideoFromSegment, bind, emit, throw, lift, try_catch.
      destruct (negb (initialized this)); [intros [= _ <-]; by left|].
      destruct (result_bind (prop segment "segment_info") _);
        [|intros [= _ <-]; by left].
      destruct (generateVideoFromSegment_try_posts this segment (default_options options)
                  (t ++ [Invoke segment (default_options options)]))
        as [Htry|[body Htry]];
        destruct (generateVideoFromSegment_try _ _ _ _) as [[v|e0] t2]; try done;
        cbn [snd] in Htry; subst t2;
        match goal with
        | |- context [generateVideoFromSegment_catch ?s ?o ?e1 ?tr] =>
            destruct (generateVideoFromSegment_catch_throws s o e1 tr) as (e' & ->)
        end;
        intros [= _ <-]; [by left|].
      right. exists body. by rewrite <- app_assoc. }
    destruct Ht' as [->|[body ->]].
    + exists []. split; [done|]. split; [by left|done].
    + exists [HttpPost (lit "/fast") body]. split; [done|]. split; [by eauto|done].
Qed.

Lemma timers_app (t d : list event) : timers (t ++ d) = timers t ++ timers d.
Proof. apply omap_app. Qed.

Lemma posts_app (t d : list event) : posts (t ++ d) = posts t ++ posts d.
Proof. apply filter_app. Qed.

(** The events one iteration adds. *)
Lemma iteration_events (this : FalAIService) (options : value) (len i : nat)
    (segment : value) (t : list event) :
  let it := iteration this options len i segment t in
  exists d,
    it.2 = t ++ d /\
    posts_to (lit "/fast") d /\
    (length (posts d) <= 1)%nat /\
    (succeeded it.1 = true -> length (posts d) = 1%nat) /\
    timers d = (if succeeded it.1 && (Z.of_nat i <? Z.of_nat len - 1)
                then [1000%nat] else []).
Proof.
  unfold iteration.
  destruct (generateVideoFromSegment_sent this segment (call_options options i) t)
    as (d & Hd & Hshape & Hsucc).
  destruct (generateVideoFromSegment _ _ _ _) as [[v|e] t'] eqn:Hcall; cbn [fst snd] in *;
    subst t'.
  - destruct Hshape as [->|[body ->]]; [by destruct Hsucc|]. clear Hsucc.
    cbn [succeeded andb].
    exists (Invoke segment (default_options (call_options options i))
            :: HttpPost (lit "/fast") body
            :: (if Z.of_nat i <? Z.of_nat len - 1 then [SetTimeout 1000] else [])).
    destruct (Z.of_nat i <? Z.of_nat len - 1).
    + split; [by rewrite <- app_assoc|].
      split; [unfold posts_to; by repeat constructor|]. by compute.
    + split; [done|]. split; [unfold posts_to; by repeat constructor|]. by compute.
  - cbn [succeeded andb]. eexists. split; [done|].
    destruct Hshape as [->|[body ->]].
    + split; [unfold posts_to; by repeat constructor|].
      compute. repeat split; done || lia.
    + split; [unfold posts_to; by repeat constructor|].
      compute. repeat split; done || lia.
Qed.

Lemma events_after_events (this : FalAIService) (options : value) (len i : nat)
    (rest : list value) (t : list event) :
  let outs := adapter_outcomes this options len i rest t in
  exists d,
    events_after this options len i rest t = t ++ d /\
    posts_to (lit "/fast") d /\
    (length (successes outs) <= length (posts d) <= length rest)%nat /\
    timers d = replicate (length (successes (take (len - 1 - i) outs))) 1000%nat.
Proof.
  revert i t. induction rest as [|segment rest IH]; intros i t.
  - exists []. cbn. rewrite app_nil_r, take_nil. by repeat split; try constructor.
  - cbn [adapter_outcomes events_after].
    destruct (iteration_events this options len i segment t)
      as (d1 & Hd1 & Hto1 & Hle1 & Hsucc1 & Htimers1).
    destruct (IH (S i) (iteration this options len i segment t).2)
      as (d2 & Hd2 & Hto2 & Hle2 & Htimers2).
    exists (d1 ++ d2). rewrite Hd2. rewrite Hd1 at 1. rewrite <- app_assoc.
    split; [done|]. split; [by apply Forall_app|].
    rewrite posts_app, length_app, timers_app, Htimers1, Htimers2. cbn [length].
    split.
    + destruct (iteration this options len i segment t).1 as [v|e];
        rewrite ?successes_Return, ?successes_Throw; cbn [length].
      * specialize (Hsucc1 eq_refl). lia.
      * lia.
    + destruct (Z.ltb_spec (Z.of_nat i) (Z.of_nat len - 1)) as [Hlt|Hge].
      * replace (len - 1 - i)%nat with (S (len - 1 - S i)) by lia. cbn [take].
        destruct (iteration this options len i segment t).1 as [v|e];
          rewrite ?successes_Return, ?successes_Throw; by cbn.
      * replace (len - 1 - i)%nat with 0%nat by lia.
        replace (len - 1 - S i)%nat with 0%nat by lia.
        rewrite andb_false_r, !take_0. done.
Qed.

(** X6: the fan-out sends at most one request per segment (no call is
    tried again), at least one per successful call, and every request is a
    POST to [/fast]. *)
Theorem generateVideosForAllSegments_requests (this : FalAIService)
    (segments : list value) (options : value) (t : list event) :
  initialized this = true ->
  Forall non_nullish segments ->
  exists b d,
    generateVideosForAllSegments this segments options t = (Return b, t ++ d) /\
    posts_to (lit "/fast") d /\
    (successCount b <= length (posts d) <= length segments)%nat.
Proof.
  intros Hinit Hsegments.
  destruct (events_after_events this options (length segments) 0 segments t)
    as (d & Hd & Hto & Hle & _).
  eexists _, d. rewrite <- Hd. split; [by apply generateVideosForAllSegments_spec|].
  split; [done|]. cbn [successCount].
  by rewrite successCount_entries by (by rewrite length_adapter_outcomes).
Qed.

(** X7: the fan-out awaits the 1000 ms timer once after each successful
    call except the call for the last segment, and at no other time. *)
Theorem generateVideosForAllSegments_timers (this : FalAIService)
    (segments : list value) (options : value) (t : list event) :
  initialized this = true ->
  Forall non_nullish segments ->
  let outs := adapter_outcomes this options (length segments) 0 segments t in
  exists b t',
    generateVideosForAllSegments this segments options t = (Return b, t') /\
    timers t'
    = timers t ++ replicate (length (successes (take (length segments - 1) outs))) 1000%nat.
Proof.
  intros Hinit Hsegments outs.
  destruct (events_after_events this options (length segments) 0 segments t)
    as (d & Hd & _ & _ & Htimers).
  eexists _, _. split; [by apply generateVideosForAllSegments_spec|].
  rewrite Hd, timers_app, Htimers. by rewrite Nat.sub_0_r.
Qed.

Lemma errors_from_elem (i : nat) (outs : list (result exn video)) (x : batch_error) :
  x ∈ errors_from i outs <->
  exists k e, outs !! k = Some (Throw e) /\
    x = {| segmentIndex := i + k + 1; error := message e |}.
Proof.
  revert i. induction outs as [|o outs IH]; intros i.
  - cbn. split; [by intros ?%elem_of_nil|by intros (k & e & ? & _)].
  - destruct o as [v|e]; cbn [errors_from]; rewrite ?elem_of_cons, IH; split.
    + intros (k & e & Hk & ->). exists (S k), e. split; [done|]. f_equal. lia.
    + intros ([|k] & e & Hk & ->); [done|]. exists k, e. split; [done|]. f_equal. lia.
    + intros [->|(k & e' & Hk & ->)].
      * exists 0%nat, e. split; [done|]. f_equal. lia.
      * exists (S k), e'. split; [done|]. f_equal. lia.
    + intros ([|k] & e' & Hk & ->).
      * injection Hk as <-. left. f_equal. lia.
      * right. exists k, e'. split; [done|]. f_equal. lia.
Qed.

Lemma errors_from_sorted (i : nat) (outs : list (result exn video)) :
  StronglySorted lt (segmentIndex <$> errors_from i outs).
Proof.
  revert i. induction outs as [|[v|e] outs IH]; intros i; cbn [errors_from].
  - constructor.
  - apply IH.
  - cbn [fmap list_fmap segmentIndex]. constructor; [apply IH|].
    apply Forall_fmap, Forall_forall. intros x (k & e' & _ & ->)%errors_from_elem.
    cbn. lia.
Qed.

Lemma entries_from_lookup_inv (i k : nat) (rest : list value)
    (outs : list (result exn video)) (r : entry) :
  entries_from i rest outs !! k = Some r ->
  exists segment o, rest !! k = Some segment /\ outs !! k = Some o /\
    r = entry_of (i + k) segment o.
Proof.
  revert i k outs. induction rest as [|s rest IH]; intros i [|k] [|o outs]; try done;
    cbn [entries_from].
  - intros [= <-]. exists s, o. by rewrite Nat.add_0_r.
  - intros (segment & o' & ? & ? & ->)%IH. exists segment, o'.
    repeat split; try done. f_equal. lia.
Qed.

(** X8: the bookkeeping of the fan-out is consistent. The counts add up
    to the number of segments; [errors] is absent exactly when no call
    failed; its entries are in increasing order of [segmentIndex], each
    between 1 and the number of segments; and [errors] and [videos] tell
    the same failures: an error with index [j] goes with a failed entry at
    position [j - 1] carrying the same message, and the other way round. *)
Theorem generateVideosForAllSegments_bookkeeping (this : FalAIService)
    (segments : list value) (options : value) (t : list event) :
  initialized this = true ->
  Forall non_nullish segments ->
  exists b t',
    generateVideosForAllSegments this segments options t = (Return b, t') /\
    (successCount b + failureCount b = totalSegments b)%nat /\
    (errors b = None <-> failureCount b = 0%nat) /\
    (forall errs, errors b = Some errs ->
       length errs = failureCount b /\
       StronglySorted lt (segmentIndex <$> errs) /\
       forall x, x ∈ errs ->
         (1 <= segmentIndex x <= length segments)%nat /\
         exists segmentNumber,
           videos b !! (segmentIndex x - 1)%nat = Some (Failed segmentNumber (error x))) /\
    (forall i segmentNumber m,
       videos b !! i = Some (Failed segmentNumber m) ->
       exists errs, errors b = Some errs /\
         {| segmentIndex := i + 1; error := m |} ∈ errs).
Proof.
  intros Hinit Hsegments.
  eexists _, _. split; [by apply generateVideosForAllSegments_spec|].
  cbn [successCount failureCount totalSegments errors videos].
  set (outs := adapter_outcomes this options (length segments) 0 segments t).
  assert (length segments = length outs) as Hlen
    by (symmetry; apply length_adapter_outcomes).
  split; [|split; [|split]].
  - rewrite successCount_entries, length_errors_from by done.
    pose proof (successes_failures outs). lia.
  - case_bool_decide; split; (done || lia).
  - intros errs Herrs.
    assert (errs = errors_from 0 outs) as -> by (case_bool_decide; congruence).
    split; [done|]. split; [apply errors_from_sorted|].
    intros x (k & e & Hk & ->)%errors_from_elem. cbn [segmentIndex error].
    assert (is_Some (segments !! k)) as [segment Hsegment].
    { apply lookup_lt_is_Some. rewrite Hlen. by eapply lookup_lt_Some. }
    split; [apply lookup_lt_Some in Hsegment; lia|].
    replace (0 + k + 1 - 1)%nat with k by lia. eexists.
    by rewrite (entries_from_lookup 0 k segments outs segment (Throw e)).
  - intros i sn m (segment & o & _ & Ho & Hr)%entries_from_lookup_inv.
    destruct o as [v|e]; [done|]. injection Hr as _ ->.
    assert ({| segmentIndex := i + 1; error := message e |} ∈ errors_from 0 outs) as Hin
      by (apply errors_from_elem; by exists i, e).
    exists (errors_from 0 outs). split; [|done].
    rewrite bool_decide_eq_true_2; [done|].
    destruct (errors_from 0 outs); [by apply elem_of_nil in Hin|cbn; lia].
Qed.





(** ** The route, further *)

Local Abbreviation reply := (reply number).

Lemma non_nullish_nullish (v : value) : non_nullish v <-> nullish v = false.
Proof. unfold non_nullish. destruct v; cbn; split; try done; by intros [??]. Qed.

Lemma is_invalid_segment_spec (segment : value) :
  non_nullish segment -> is_invalid_segment segment = Return (invalid_structure segment).
Proof.
  intros Hs. unfold is_invalid_segment, invalid_structure.
  rewrite (prop_not_nullish segment) by done. cbn [result_bind].
  destruct (truthy (prop_opt (prop_opt segment "action_timeline") "dialogue")); [done|].
  cbn [negb andb]. by rewrite (prop_not_nullish segment).
Qed.

Lemma map_result_is_invalid_segment (segments : list value) :
  Forall non_nullish segments ->
  map_result is_invalid_segment segments = Return (map invalid_structure segments).
Proof.
  induction 1 as [|s l Hs _ IH]; [done|]. cbn [map_result map].
  by rewrite is_invalid_segment_spec, IH.
Qed.

Lemma map_result_nullish_segment (segments : list value) :
  Exists (fun s => nullish s = true) segments ->
  exists m, map_result is_invalid_segment segments = Throw (TypeError m) /\
            statusCode_for m = 500%N.
Proof.
  induction segments as [|s l IH]; [by intros ?%Exists_nil|].
  intros Hex. cbn [map_result].
  destruct (nullish s) eqn:Hs.
  - destruct s; try done; eexists; (split; [done|by vm_compute]).
  - rewrite is_invalid_segment_spec by by apply non_nullish_nullish.
    apply Exists_cons in Hex as [Hhead|Htail]; [congruence|].
    destruct (IH Htail) as (m & -> & Hm). by exists m.
Qed.

Lemma filter_true_empty (bs : list bool) :
  filter (fun b => b = true) bs = [] <-> Forall (fun b => b = false) bs.
Proof.
  induction bs as [|[] bs IH]; [done| |].
  - rewrite filter_cons_True by done. split; [done|]. by intros [? _]%Forall_cons.
  - rewrite filter_cons_False by done. rewrite IH, Forall_cons. by intuition.
Qed.

(** What the route does once the body has passed its checks. *)
Lemma generate_videos_falai_valid (falaiService : FalAIService)
    (req_body : value) (segments : list value) (t : list event) :
  non_nullish req_body ->
  prop_opt req_body "segments" = VArr segments ->
  segments <> [] ->
  Forall (fun s => non_nullish s /\ invalid_structure s = false) segments ->
  prop_opt req_body "options" <> VNull ->
  generate_videos_falai falaiService req_body t
  = match generateVideosForAllSegments falaiService segments
            (route_options (default_options (prop_opt req_body "options"))) t with
    | (Return result, t') => (Return {| statusCode := 200; body := Videos result |}, t')
    | (Throw error, t') =>
        (Return {| statusCode := statusCode_for (message error);
                   body := Refused (lit "Video generation failed") (message error) |}, t')
    end.
Proof.
  intros Hbody Hsegments Hnonempty Hvalid Hoptions.
  assert (non_nullish (default_options (prop_opt req_body "options"))) as Hopts.
  { destruct (prop_opt req_body "options"); by split. }
  assert (map_result is_invalid_segment segments
          = Return (map invalid_structure segments)) as Hmap
    by (apply map_result_is_invalid_segment;
        eapply Forall_impl; [exact Hvalid|by intros ? [? _]]).
  assert (filter (fun b => b = true) (map invalid_structure segments) = []) as Hnone
    by (apply filter_true_empty, Forall_map;
        eapply Forall_impl; [exact Hvalid|by intros ? [_ ?]]).
  unfold generate_videos_falai, try_catch. unfold bind at 1, lift at 1.
  rewrite !(prop_not_nullish req_body) by done. cbn [result_bind].
  unfold bind at 1, lift at 1. rewrite Hsegments.
  destruct segments as [|s l]; [done|]. clear Hnonempty.
  unfold bind at 1, lift at 1. rewrite Hmap, Hnone.
  rewrite bool_decide_eq_false_2 by (cbn; lia).
  unfold bind at 1, lift at 1.
  rewrite !(prop_not_nullish (default_options _)) by done. cbn [result_bind].
  fold (route_options (default_options (prop_opt req_body "options"))).
  unfold bind at 1.
  by destruct (generateVideosForAllSegments _ _ _ _) as [[b|e] t'].
Qed.

(** X10: the route refuses with 400, and calls nothing, a body whose
    [segments] is not a non-empty array, and a body in which some segment
    has neither a dialogue nor a character description. *)
Theorem generate_videos_falai_refuses (falaiService : FalAIService)
    (req_body : value) (t : list event) :
  non_nullish req_body ->
  ((forall x l, prop_opt req_body "segments" <> VArr (x :: l)) ->
   generate_videos_falai falaiService req_body t
   = (Return {| statusCode := 400;
                body := Refused (lit "Invalid request")
                  (lit "segments array is required and must not be empty") |}, t)) /\
  (forall segments,
     prop_opt req_body "segments" = VArr segments ->
     Forall non_nullish segments ->
     Exists (fun s => invalid_structure s = true) segments ->
     generate_videos_falai falaiService req_body t
     = (Return {| statusCode := 400;
                  body := Refused (lit "Invalid segment structure")
                    (lit "Each segment must have action_timeline.dialogue or character_description") |},
        t)).
Proof.
  intros Hbody. split.
  - intros Hnot. unfold generate_videos_falai, try_catch, bind, lift.
    rewrite !(prop_not_nullish req_body) by done. cbn [result_bind].
    destruct (prop_opt req_body "segments") as [| | | | |[|x l]|]; try done.
    by destruct (Hnot x l).
  - intros segments Hsegments Hobjects Hinvalid.
    pose proof (map_result_is_invalid_segment segments Hobjects) as Hmap.
    assert (0 < length (filter (fun b => b = true) (map invalid_structure segments)))%nat
      as Hsome.
    { destruct (filter (fun b => b = true) (map invalid_structure segments)) eqn:Hf;
        [|cbn; lia].
      apply filter_true_empty, Forall_map in Hf.
      apply Exists_exists in Hinvalid as (x & Hx & Hxi).
      rewrite Forall_forall in Hf. specialize (Hf x Hx). cbn in Hf. congruence. }
    unfold generate_videos_falai, try_catch. unfold bind at 1, lift at 1.
    rewrite !(prop_not_nullish req_body) by done. cbn [result_bind].
    unfold bind at 1, lift at 1. rewrite Hsegments.
    destruct segments as [|s l]; [by apply Exists_nil in Hinvalid|].
    unfold bind at 1, lift at 1. rewrite Hmap.
    by rewrite bool_decide_eq_true_2.
Qed.

(** X11: a [segments] array that holds [null] is answered 500, not 400:
    the validation itself throws. Nothing is called. *)
Theorem generate_videos_falai_null_segment (falaiService : FalAIService)
    (req_body : value) (segments : list value) (t : list event) :
  non_nullish req_body ->
  prop_opt req_body "segments" = VArr segments ->
  Exists (fun s => nullish s = true) segments ->
  exists m,
    generate_videos_falai falaiService req_body t
    = (Return {| statusCode := 500;
                 body := Refused (lit "Video generation failed") m |}, t).
Proof.
  intros Hbody Hsegments Hnull.
  destruct (map_result_nullish_segment segments Hnull) as (m & Hm & Hstatus).
  exists m. unfold generate_videos_falai, try_catch. unfold bind at 1, lift at 1.
  rewrite !(prop_not_nullish req_body) by done. cbn [result_bind].
  unfold bind at 1, lift at 1. rewrite Hsegments.
  destruct segments as [|s l]; [by apply Exists_nil in Hnull|].
  unfold bind at 1, lift at 1. rewrite Hm.
  unfold bind, lift, ret. cbn [result_bind message]. by rewrite Hstatus.
Qed.

(** X12: with an initialized service every body that passes the checks is
    answered 200 with one entry per segment, whatever the provider does:
    failed calls are told in the body only. *)
Theorem generate_videos_falai_answers_200 (falaiService : FalAIService)
    (req_body : value) (segments : list value) (t : list event) :
  initialized falaiService = true ->
  non_nullish req_body ->
  prop_opt req_body "segments" = VArr segments ->
  segments <> [] ->
  Forall (fun s => non_nullish s /\ invalid_structure s = false) segments ->
  prop_opt req_body "options" <> VNull ->
  exists b t',
    generate_videos_falai falaiService req_body t
    = (Return {| statusCode := 200; body := Videos b |}, t') /\
    length (videos b) = length segments /\
    invoked t' = invoked t ++ segments.
Proof.
  intros Hinit Hbody Hsegments Hnonempty Hvalid Hoptions.
  rewrite (generate_videos_falai_valid falaiService req_body segments t) by done.
  assert (Forall non_nullish segments) as Hobjects
    by (eapply Forall_impl; [exact Hvalid|by intros ? [? _]]).
  rewrite generateVideosForAllSegments_spec by done.
  eexists _, _. split; [done|]. cbn [videos].
  split; [|apply invoked_events_after].
  apply length_entries_from. by rewrite length_adapter_outcomes.
Qed.

(** X13: with a service that has no API key a valid body is answered 500
    with the message ["FalAI service not initialized"], and nothing is
    called. *)
Theorem generate_videos_falai_not_initialized (falaiService : FalAIService)
    (req_body : value) (segments : list value) (t : list event) :
  initialized falaiService = false ->
  non_nullish req_body ->
  prop_opt req_body "segments" = VArr segments ->
  segments <> [] ->
  Forall (fun s => non_nullish s /\ invalid_structure s = false) segments ->
  prop_opt req_body "options" <> VNull ->
  generate_videos_falai falaiService req_body t
  = (Return {| statusCode := 500;
               body := Refused (lit "Video generation failed")
                         (lit "FalAI service not initialized") |}, t).
Proof.
  intros Hinit Hbody Hsegments Hnonempty Hvalid Hoptions.
  rewrite (generate_videos_falai_valid falaiService req_body segments t) by done.
  unfold generateVideosForAllSegments. by rewrite Hinit.
Qed.

End Further.

(** ** The constructor and the status probe *)

Section StatusProperties.
Context {number : Type} `{JSNumber number}.

(** X14: the service is initialized exactly when [FAL_AI_API_KEY] or
    [FALAI_API_KEY] is set to a non-empty value; its key is then not empty,
    and it is the one of [FAL_AI_API_KEY] whenever that one is set. *)
Theorem new_FalAIService_initialized (env : gmap string string)
    (network : nat -> jsstring -> value number -> settled number) :
  let this := new_FalAIService env network in
  (initialized this = true <->
   credential_present env "FAL_AI_API_KEY" \/ credential_present env "FALAI_API_KEY") /\
  (initialized this = true -> exists key, apiKey this = Some key /\ key <> ""%string) /\
  (credential_present env "FAL_AI_API_KEY" -> apiKey this = env !! "FAL_AI_API_KEY"%string).
Proof.
  cbn [new_FalAIService initialized apiKey]. split; [|split].
  - by rewrite orb_true_iff, !env_truthy_present.
  - intros [H1|H2]%orb_true_iff.
    + rewrite H1. by apply env_truthy_present in H1 as (v & -> & ?); eauto.
    + destruct (env_truthy env "FAL_AI_API_KEY") eqn:H1.
      * by apply env_truthy_present in H1 as (v & -> & ?); eauto.
      * by apply env_truthy_present in H2 as (v & -> & ?); eauto.
  - intros Hkey%env_truthy_present. by rewrite Hkey.
Qed.

(** X15: the status probe tells the service available exactly when a key
    is configured and the health request is resolved; without a key the
    answer is "API key not configured" whatever the network would say. *)
Theorem getServiceStatus_available (env : gmap string string)
    (network : nat -> jsstring -> value number -> settled number)
    (health : settled number) :
  let this := new_FalAIService env network in
  (available (getServiceStatus this health) = true <->
   (credential_present env "FAL_AI_API_KEY" \/ credential_present env "FALAI_API_KEY")
   /\ exists data, health = Resolved data) /\
  (~ (credential_present env "FAL_AI_API_KEY" \/ credential_present env "FALAI_API_KEY") ->
   getServiceStatus this health
   = {| available := false; reason := Some (lit "API key not configured") |}).
Proof.
  intros this.
  assert (initialized this = true <->
          credential_present env "FAL_AI_API_KEY" \/ credential_present env "FALAI_API_KEY")
    as Hinit.
  { cbn [this new_FalAIService initialized].
    by rewrite orb_true_iff, !env_truthy_present. }
  unfold getServiceStatus. rewrite <- Hinit.
  destruct (initialized this); cbn [negb]; split.
  - destruct health; cbn [available]; split; try done; [by eauto|by intros [_ [??]]].
  - by intros [].
  - split; [done|]. by intros [? _].
  - done.
Qed.

End StatusProperties.

(** ** The logger *)

Section LoggerProperties.
Context {number : Type} `{JSNumber number}.
Variable path_join : jsstring -> jsstring -> jsstring.
Variable JSON_stringify : value number -> jsstring.

Lemma _log_output (this : logger.Logger) (timestamp message : jsstring) (at_level : N)
    (data : value number) :
  logger._log JSON_stringify this timestamp at_level message data <> [] <->
  (at_level <= logger.level this)%N.
Proof.
  unfold logger._log. destruct (N.ltb_spec (logger.level this) at_level); split;
    try done; lia.
Qed.

(** X16: a logger cannot be set to the level ERROR through its options:
    0 is taken for a missing level. With no level given, or with 0, errors,
    warnings and infos are always output, debug messages only when
    [NODE_ENV] is ["development"], and trace messages never. *)
Theorem new_Logger_default_level (env : gmap string string) (isTTY : bool)
    (logsDir date name timestamp message : jsstring) (writeToFile colorize : option bool)
    (data : value number) :
  let asked l :=
    logger.new_Logger path_join env isTTY logsDir date name
      {| logger.options_level := l; logger.options_writeToFile := writeToFile;
         logger.options_colorize := colorize |} in
  let output this l := logger._log JSON_stringify this timestamp l message data <> [] in
  asked (Some logger.ERROR) = asked None /\
  output (asked None) logger.ERROR /\
  output (asked None) logger.WARN /\
  output (asked None) logger.INFO /\
  (output (asked None) logger.DEBUG <->
   env !! "NODE_ENV"%string = Some "development"%string) /\
  ~ output (asked None) logger.TRACE.
Proof.
  intros asked output. split; [done|]. unfold output.
  rewrite !_log_output. cbn [asked logger.new_Logger logger.level logger.options_level].
  case_bool_decide as Henv; unfold logger.ERROR, logger.WARN, logger.INFO, logger.DEBUG,
    logger.TRACE; repeat split; try done; lia.
Qed.

End LoggerProperties.

(** ** The client's estimate and the server's total *)

Section EstimateProperties.
Context {number : Type} `{JSNumber number}.
Local Abbreviation value := (value number).
Local Abbreviation exn := (exn number).
Local Abbreviation event := (event number).
Local Abbreviation FalAIService := (FalAIService number).
Local Abbreviation video := (video number).














End EstimateProperties.

(** ** The translation of a rejected request *)

Section TranslationProperties.
Context {number : Type} `{JSNumber number}.
Local Abbreviation value := (value number).
Local Abbreviation exn := (exn number).
Local Abbreviation event := (event number).
Local Abbreviation FalAIService := (FalAIService number).

(** X18: when the provider or the network rejects the request of a call,
    the call throws after that one request, and what it throws is decided
    by the response first, then by the error code, then by whether a
    request was made: the fixed messages for the statuses 401, 402, 429
    and 500; without a response, the timeout message for the code
    [ECONNABORTED] even though a request was made, else the network
    message, else the client's own message after ["FalAI service error: "]. *)
Theorem generateVideoFromSegment_translation (this : FalAIService)
    (segment options body : value) (label prompt m : jsstring) (c : option jsstring)
    (r : bool) (rs : option (N * value)) (t : list event) :
  initialized this = true ->
  to_string (prop_opt (prop_opt segment "segment_info") "segment_number") = Return label ->
  createVideoPrompt segment (default_options options) = Return prompt ->
  requestData prompt (default_options options) = Return body ->
  axiosInstance this (length (posts t)) (lit "/fast") body = Rejected m c r rs ->
  exists e,
    generateVideoFromSegment this segment options t
    = (Throw e,
       t ++ [Invoke segment (default_options options); HttpPost (lit "/fast") body]) /\
    match rs with
    | Some (status, data) =>
        (status = 401%N ->
         e = Error (lit "Invalid API key. Please check your FALAI_API_KEY")) /\
        (status = 402%N ->
         e = Error (lit "Insufficient credits. Please add funds to your FalAI account")) /\
        (status = 429%N ->
         e = Error (lit "Rate limit exceeded. Please wait and try again")) /\
        (status = 500%N ->
         e = Error (lit "FalAI service error. Please try again later"))
    | None =>
        if bool_decide (c = Some (lit "ECONNABORTED")) then
          e = Error (lit "Request timeout. Video generation is taking longer than expected")
        else if r then
          e = Error (lit "Network error. Please check your internet connection")
        else e = Error (lit "FalAI service error: " ++ m)
    end.
Proof.
  intros Hinit Hlabel Hprompt Hbody Hpost.
  assert (length (filter (fun e => is_post e = true)
                    (t ++ [Invoke segment (default_options options)]))
          = length (posts t)) as Hcount.
  { unfold posts. rewrite filter_app, length_app.
    change (length (filter _ [Invoke _ _])) with 0%nat. lia. }
  rewrite (generateVideoFromSegment_rejected this segment options body label prompt
             m c r rs t Hinit Hlabel Hprompt Hbody)
    by (by rewrite Hcount).
  rewrite <- app_assoc. cbn [app].
  set (t' := t ++ [Invoke segment (default_options options); HttpPost (lit "/fast") body]).
  destruct (generateVideoFromSegment_catch_throws segment (default_options options)
              (AxiosError m c r rs) t') as (e & He).
  exists e. split; [done|].
  destruct rs as [[status data]|].
  - split_and!; intros ->.
    + rewrite (catch_401 _ _ prompt) in He by done. by injection He.
    + rewrite (catch_402 _ _ prompt) in He by done. by injection He.
    + rewrite (catch_429 _ _ prompt) in He by done. by injection He.
    + rewrite (catch_500 _ _ prompt) in He by done. by injection He.
  - case_bool_decide as Hc.
    + subst c. rewrite (catch_timeout _ _ prompt) in He by done. by injection He.
    + destruct r.
      * rewrite (catch_network _ _ prompt) in He by done. by injection He.
      * revert He. unfold generateVideoFromSegment_catch, bind, lift.
        rewrite (logError_arguments _ _ prompt) by done.
        cbn [response code request]. rewrite bool_decide_eq_false_2 by done.
        unfold throw. cbn [message]. by intros [= <-].
Qed.

End TranslationProperties.

(** ** The opening of the prompt *)

Lemma trimStart_keeps (a b : jsstring) (c : code_unit) :
  is_space c = false -> exists y, trimStart (a ++ c :: b) = y ++ c :: b.
Proof.
  intros Hc. induction a as [|d a [y IH]]; cbn [app trimStart].
  - rewrite Hc. by exists [].
  - destruct (is_space d); [by exists y|]. by exists (d :: a).
Qed.

Lemma trimEnd_keeps (p x : jsstring) (c : code_unit) :
  is_space c = false -> exists y, trimEnd ((p ++ [c]) ++ x) = (p ++ [c]) ++ y.
Proof.
  intros Hc. unfold trimEnd. rewrite !rev_app_distr. cbn [rev app].
  destruct (trimStart_keeps (rev x) (rev p) c Hc) as [y ->].
  exists (rev y). by rewrite rev_app_distr, <- app_assoc; cbn [rev app];
    rewrite rev_involutive, <- app_assoc.
Qed.

Lemma replace_spaces_from_keeps (p z : jsstring) (c : code_unit) (in_run : bool) :
  is_space c = false ->
  replace_spaces_from in_run ((p ++ [c]) ++ z)
  = replace_spaces_from in_run (p ++ [c]) ++ replace_spaces_from false z.
Proof.
  intros Hc. revert in_run. induction p as [|d p IH]; intros in_run;
    cbn [app replace_spaces_from].
  - by rewrite Hc.
  - destruct (is_space d), in_run; by rewrite ?IH.
Qed.

Section PromptProperties.
Context {number : Type} `{JSNumber number}.
Local Abbreviation value := (value number).

(** The text before the cleaning starts with the fixed opening. *)
Lemma createVideoPrompt_raw (segment options : value) (s : jsstring) :
  createVideoPrompt segment options = Return s ->
  exists x,
    s = substring0 1000
          (replace_spaces (trim ((lit "UGC style video" ++ [58%N : code_unit]) ++ space :: x))).
Proof.
  unfold createVideoPrompt. intros Hs. bind_inversion Hs. injection Hs as <-.
  destruct (truthy (prop_opt x "continuity_markers"));
    bind_inversion Hx0; injection Hx0 as <-; by eexists.
Qed.

(** X19: every prompt that [createVideoPrompt] returns starts with
    ["UGC style video:"], whatever the segment holds: the cleaning
    (trim, white-space replacement, cut at 1000) never touches the
    opening. In particular the prompt is never empty. *)
Theorem createVideoPrompt_opening (segment options : value) (s : jsstring) :
  createVideoPrompt segment options = Return s ->
  exists rest, s = lit "UGC style video:" ++ rest.
Proof.
  intros [x ->]%createVideoPrompt_raw.
  assert (is_space 58%N = false) as Hcolon by done.
  unfold trim. change (trimStart (_ ++ space :: x)) with
    ((lit "UGC style video" ++ [58%N : code_unit]) ++ space :: x).
  destruct (trimEnd_keeps (lit "UGC style video") (space :: x) 58%N Hcolon) as [y ->].
  unfold replace_spaces. rewrite replace_spaces_from_keeps by done.
  change (replace_spaces_from false (lit "UGC style video" ++ [58%N : code_unit]))
    with (lit "UGC style video:").
  unfold substring0. rewrite take_app_ge by (cbn; lia). by eexists.
Qed.

End PromptProperties.

(** ** [calculateCost] in IEEE 754 doubles *)

(** Shifting a mantissa to the right halves it. *)
Lemma shr_1_m (r : shr_record) : 0 <= shr_m r -> shr_m (shr_1 r) = shr_m r / 2.
Proof.
  destruct r as [m b s]. cbn [shr_m shr_1]. intros Hm.
  destruct m as [|[p|p|]|p]; cbn [shr_m]; [done| | |done|lia].
  - apply Z.div_unique with 1; lia.
  - apply Z.div_unique with 0; lia.
Qed.

Lemma iter_pos_shr_1_m (n : positive) (r : shr_record) :
  0 <= shr_m r -> shr_m (SpecFloat.iter_pos shr_1 n r) = shr_m r / 2 ^ Z.pos n.
Proof.
  revert r. induction n as [n IH|n IH|]; intros r Hr; cbn [SpecFloat.iter_pos].
  - assert (0 <= shr_m (shr_1 r)) by (rewrite shr_1_m by done; apply Z.div_pos; lia).
    assert (0 <= shr_m (SpecFloat.iter_pos shr_1 n (shr_1 r)))
      by (rewrite IH by done; apply Z.div_pos; lia).
    rewrite !IH, shr_1_m by done. rewrite !Z.div_div by lia.
    f_equal. replace (Z.pos n~1) with (1 + Z.pos n + Z.pos n) by lia.
    rewrite !Z.pow_add_r by lia. change (2 ^ 1) with 2. ring.
  - assert (0 <= shr_m (SpecFloat.iter_pos shr_1 n r))
      by (rewrite IH by done; apply Z.div_pos; lia).
    rewrite !IH by done. rewrite !Z.div_div by lia.
    f_equal. replace (Z.pos n~0) with (Z.pos n + Z.pos n) by lia.
    by rewrite Z.pow_add_r by lia.
  - by rewrite shr_1_m.
Qed.

(** The number of binary digits of a mantissa. *)
Lemma digits2_pos_le (p : positive) : 2 ^ (Z.pos (digits2_pos p) - 1) <= Z.pos p.
Proof.
  induction p as [p IH|p IH|]; cbn [digits2_pos]; [| |done].
  - rewrite Pos2Z.inj_succ.
    replace (Z.succ (Z.pos (digits2_pos p)) - 1) with (Z.succ (Z.pos (digits2_pos p) - 1))
      by lia.
    rewrite Z.pow_succ_r by lia. lia.
  - rewrite Pos2Z.inj_succ.
    replace (Z.succ (Z.pos (digits2_pos p)) - 1) with (Z.succ (Z.pos (digits2_pos p) - 1))
      by lia.
    rewrite Z.pow_succ_r by lia. lia.
Qed.

Lemma digits2_pos_iter_xO (p k : positive) :
  digits2_pos (Pos.iter xO p k) = (digits2_pos p + k)%positive.
Proof.
  induction k as [|k IH] using Pos.peano_ind.
  - cbn. lia.
  - rewrite Pos.iter_succ. cbn [digits2_pos]. rewrite IH. lia.
Qed.

Lemma pos_iter_xO (p k : positive) : Z.pos (Pos.iter xO p k) = Z.pos p * 2 ^ Z.pos k.
Proof.
  induction k as [|k IH] using Pos.peano_ind.
  - cbn. lia.
  - rewrite Pos.iter_succ, Pos2Z.inj_xO, IH, Pos2Z.inj_succ, Z.pow_succ_r by lia. lia.
Qed.

(** Rounding a positive mantissa whose exponent is not below the least
    one never gives zero: the shift leaves at least its leading digit. *)
Lemma shr_fexp_positive (m e : Z) (l : location) :
  0 < m -> -1074 <= e ->
  0 < shr_m (shr_fexp binary64.prec binary64.emax m e l).1 /\
  -1074 <= (shr_fexp binary64.prec binary64.emax m e l).2.
Proof.
  intros Hm He. unfold shr_fexp, shr.
  destruct m as [|p|p]; try lia. cbn [Zdigits2].
  pose proof (digits2_pos_le p) as Hd.
  set (r := shr_record_of_loc (Z.pos p) l).
  assert (shr_m r = Z.pos p) as Hr by (unfold r; by destruct l as [|[]]).
  destruct (fexp binary64.prec binary64.emax (Z.pos (digits2_pos p) + e) - e)
    as [|n|n] eqn:Hn; cbn [fst snd]; try (rewrite Hr; lia).
  unfold fexp, emin, binary64.prec, binary64.emax in Hn.
  rewrite iter_pos_shr_1_m, Hr by lia. split; [|lia].
  apply Z.div_str_pos. split; [lia|].
  etransitivity; [|exact Hd]. apply Z.pow_le_mono_r; lia.
Qed.

Lemma round_nearest_even_positive (m : Z) (l : location) :
  0 < m -> 0 < round_nearest_even m l.
Proof.
  intros Hm. destruct l as [|[]]; cbn [round_nearest_even]; try lia.
  destruct (Z.even m); lia.
Qed.

Lemma binary_round_aux_truthy (s : bool) (m : positive) (e : Z) (l : location) :
  -1074 <= e ->
  binary64.is_falsy (binary_round_aux binary64.prec binary64.emax s (Z.pos m) e l) = false.
Proof.
  intros He. unfold binary_round_aux.
  pose proof (shr_fexp_positive (Z.pos m) e l ltac:(lia) He) as [H1 H1'].
  destruct (shr_fexp _ _ (Z.pos m) e l) as [r1 e1]. cbn [fst snd] in H1, H1'.
  pose proof (shr_fexp_positive _ e1 loc_Exact
                (round_nearest_even_positive _ (loc_of_shr_record r1) H1) H1') as [H2 _].
  destruct (shr_fexp _ _ _ e1 loc_Exact) as [r2 e2]. cbn [fst] in H2.
  destruct (shr_m r2) as [|p|p]; try lia.
  by destruct (e2 <=? _).
Qed.

(** The Number value of a positive integer is truthy: a double or
    [Infinity], never [0] or [NaN]. *)
Lemma of_Z_truthy (z : Z) : 0 < z -> binary64.is_falsy (binary64.of_Z z) = false.
Proof.
  intros Hz. destruct z as [|p|p]; try lia.
  unfold binary64.of_Z, binary_normalize, binary_round, shl_align.
  set (e' := fexp binary64.prec binary64.emax (Z.pos (digits2_pos p) + 0)).
  assert (-1074 <= e') by (unfold e', fexp, emin, binary64.prec, binary64.emax; lia).
  destruct (e' - 0) eqn:Hs; apply binary_round_aux_truthy; lia.
Qed.

(** A mantissa of 53 digits is not rounded. *)
Lemma binary_round_aux_exact (m : positive) (e : Z) :
  Z.pos (digits2_pos m) = 53 -> -1074 <= e <= 971 ->
  binary_round_aux binary64.prec binary64.emax false (Z.pos m) e loc_Exact
  = S754_finite false m e.
Proof.
  intros Hd He.
  assert (fexp binary64.prec binary64.emax (Z.pos (digits2_pos m) + e) - e = 0) as Hs
    by (unfold fexp, emin, binary64.prec, binary64.emax; lia).
  unfold binary_round_aux, shr_fexp. cbn [Zdigits2 shr_record_of_loc]. rewrite Hs.
  cbn [shr shr_m loc_of_shr_record round_nearest_even Zdigits2 shr_record_of_loc].
  rewrite Hs. cbn [shr shr_m]. unfold binary64.emax, binary64.prec.
  destruct (Z.leb_spec e (1024 - 53)); [done|lia].
Qed.

(** Below [2 ^ 53] the Number value of an integer is that integer. *)
Lemma of_Z_exact (z : Z) :
  0 < z < 2 ^ 53 ->
  exists q, binary64.to_Q (binary64.of_Z z) = Some q /\ (q == inject_Z z)%Q.
Proof.
  intros [Hz Hlt]. destruct z as [|p|p]; try lia.
  pose proof (digits2_pos_le p) as Hle.
  assert (Z.pos (digits2_pos p) <= 53) as Hd.
  { destruct (Z.le_gt_cases (Z.pos (digits2_pos p)) 53) as [|Hgt]; [done|].
    assert (2 ^ 53 <= 2 ^ (Z.pos (digits2_pos p) - 1)) by (apply Z.pow_le_mono_r; lia).
    lia. }
  unfold binary64.of_Z, binary_normalize, binary_round, shl_align.
  assert (fexp binary64.prec binary64.emax (Z.pos (digits2_pos p) + 0)
          = Z.pos (digits2_pos p) - 53) as ->
    by (unfold fexp, emin, binary64.prec, binary64.emax; lia).
  rewrite Z.sub_0_r.
  destruct (Z.pos (digits2_pos p) - 53) as [|k|k] eqn:Hk; try lia.
  - rewrite binary_round_aux_exact by lia. eexists. split; [done|].
    cbn [Z.pow]. by rewrite Z.mul_1_r.
  - rewrite binary_round_aux_exact by (rewrite ?digits2_pos_iter_xO; lia).
    eexists. split; [done|].
    unfold Qeq. cbn [Qnum Qden inject_Z]. rewrite pos_iter_xO, Pos2Z.inj_pow. lia.
Qed.

(** [parseInt(...) || 8]: the Number value of the billed seconds. *)
Lemma binary64_seconds (duration : jsstring) :
  (let n := binary64.parseInt (remove_non_digits duration) in
   if binary64.is_falsy n then binary64.of_Z 8 else n)
  = binary64.of_Z (billed_seconds duration).
Proof.
  unfold binary64.parseInt, billed_seconds, digits_integer.
  rewrite digit_prefix_remove_non_digits.
  assert (0 <= numeral_value (remove_non_digits duration)) as Hz.
  { apply numeral_value_nonneg. unfold remove_non_digits.
    apply Forall_forall. by intros c [? _]%list_elem_of_filter. }
  destruct (remove_non_digits duration) as [|c r] eqn:Hd; [done|].
  rewrite foldl_horner, Z.mul_0_l, Z.add_0_l. cbn zeta.
  case_bool_decide as Hzero; [by rewrite Hzero|].
  by rewrite of_Z_truthy by lia.
Qed.

Section CostProperties.
Context {number : Type} `{JSNumber number}.
Local Abbreviation value := (value number).
Local Abbreviation exn := (exn number).

(** The flag is read for its truthiness, and a missing flag means audio. *)
Lemma binary64_calculateCost_string (duration : jsstring) (generateAudio : value) :
  binary64.calculateCost (VStr duration) generateAudio
  = Return (binary64.mul (binary64.of_Z (billed_seconds duration))
              (binary64.rate (audio_included generateAudio))).
Proof.
  pose proof (binary64_seconds duration) as Hseconds. cbv zeta in Hseconds.
  unfold binary64.calculateCost. cbn [result_bind]. cbv zeta.
  rewrite Hseconds. unfold binary64.rate.
  by destruct generateAudio as [| |b|n|s|l|o].
Qed.

(** The two readings of [calculateCost] differ in the arithmetic only:
    the same seconds and the same rate, and the same error for a duration
    that is not a string. *)
Lemma calculateCost_readings (duration generateAudio : value) :
  match duration with
  | VStr s =>
      calculateCost duration generateAudio
      = Return (inject_Z (billed_seconds s) * rate (audio_included generateAudio))%Q /\
      binary64.calculateCost duration generateAudio
      = Return (binary64.mul (binary64.of_Z (billed_seconds s))
                  (binary64.rate (audio_included generateAudio)))
  | _ =>
      exists e, calculateCost duration generateAudio = Throw e /\
                binary64.calculateCost duration generateAudio = Throw e
  end.
Proof.
  destruct duration; try (by eexists).
  split; [apply calculateCost_string|apply binary64_calculateCost_string].
Qed.

(** C3 (amended): for every duration string and audio flag
    [calculateCost] returns, in IEEE 754 double arithmetic, the billed
    seconds times 0.40 with audio and times 0.20 without: the double
    product of the Number value of the seconds and the double nearest to
    the rate. The billed seconds are the integer written by the digits of
    the string, or 8 when the string has no digit or its digits write 0;
    below [2 ^ 53] their Number value is that integer itself. *)
Theorem calculateCost_billed (duration : jsstring) (audio : bool) :
  binary64.calculateCost (VStr duration) (VBool audio : value)
  = Return (binary64.mul (binary64.of_Z (billed_seconds duration)) (binary64.rate audio)) /\
  (billed_seconds duration < 2 ^ 53 ->
   exists q, binary64.to_Q (binary64.of_Z (billed_seconds duration)) = Some q /\
     (q == inject_Z (billed_seconds duration))%Q).
Proof.
  split; [apply (binary64_calculateCost_string duration (VBool audio))|].
  intros Hlt. apply of_Z_exact. pose proof (billed_seconds_positive duration). lia.
Qed.

End CostProperties.

(** The literals are the doubles nearest to 0.40 and 0.20. In doubles
    3 seconds with audio, and 6 seconds without, cost
    1.2000000000000002, the double after the one nearest to 1.2; 8 seconds
    with audio cost the double nearest to 3.2. Twenty nines are parsed as
    [1e20] and cost [4e19]; a numeral of 400 digits is parsed as
    [Infinity], which is its cost. *)
Example calculateCost_in_doubles :
  binary64.literal_0_40 = binary64.div (binary64.of_Z 2) (binary64.of_Z 5) /\
  binary64.literal_0_20 = binary64.div (binary64.of_Z 1) (binary64.of_Z 5) /\
  binary64.calculateCost (VStr (lit "3s")) (VBool true : value Z)
  = Return (S754_finite false 5404319552844596 (-52)) /\
  binary64.calculateCost (VStr (lit "6s")) (VBool false : value Z)
  = Return (S754_finite false 5404319552844596 (-52)) /\
  binary64.div (binary64.of_Z 6) (binary64.of_Z 5) = S754_finite false 5404319552844595 (-52) /\
  binary64.calculateCost (VStr (lit "8s")) (VBool true : value Z)
  = Return (binary64.div (binary64.of_Z 16) (binary64.of_Z 5)) /\
  binary64.parseInt (lit "99999999999999999999") = binary64.of_Z (10 ^ 20) /\
  binary64.calculateCost (VStr (lit "99999999999999999999")) (VBool true : value Z)
  = Return (binary64.of_Z (4 * 10 ^ 19)) /\
  binary64.calculateCost (VStr (replicate 400 57%N)) (VBool true : value Z)
  = Return (S754_infinity false).
Proof. repeat split; by vm_compute. Qed.

(** ["0s"] writes the integer 0, and is billed 8 seconds. *)
Lemma calculateCost_of_zero_seconds :
  exists c,
    binary64.calculateCost (VStr (lit "0s")) (VBool true : value Z) = Return c /\
    digits_integer (lit "0s") = 0 /\
    c = binary64.mul (binary64.of_Z 8) (binary64.rate true) /\
    c <> binary64.mul (binary64.of_Z (digits_integer (lit "0s"))) (binary64.rate true).
Proof. eexists. split; [by vm_compute|]. split; [done|]. split; by vm_compute. Qed.

(** ** Scenarios of the further properties *)

Lemma three_segments_valid :
  Forall (fun s => non_nullish s /\ invalid_structure s = false) three_segments.
Proof. repeat constructor; done. Qed.

Lemma success_after_post_witness :
  let this := configured always_ready in
  let segment := plain_segment 1 "Hi there" in
  exists v t',
    generateVideoFromSegment this segment (VObj []) [] = (Return v, t') /\
    exists body data,
      t' = [] ++ [Invoke segment (default_options (VObj [])); HttpPost (lit "/fast") body] /\
      axiosInstance this (length (posts ([] : list (event Z)))) (lit "/fast") body
      = Resolved data /\
      non_nullish data /\
      videoUrl v = prop_opt (prop_opt data "video") "url" /\
      status v = or_else (prop_opt data "status") (VStr (lit "completed")) /\
      requestId v = prop_opt data "request_id".
Proof.
  intros this segment.
  destruct (generateVideoFromSegment this segment (VObj []) []) as [[v|e] t'] eqn:Hcall;
    [|by vm_compute in Hcall].
  exists v, t'. split; [reflexivity|].
  exact (generateVideoFromSegment_success_after_post this segment (VObj []) [] t' v Hcall).
Defined.

Lemma prompt_failure_witness :
  let this := configured always_ready in
  let segment := enhanced_without_character in
  let e : exn Z :=
    TypeError (lit "Cannot read properties of undefined (reading 'current_state')") in
  initialized this = true /\
  to_string (prop_opt (prop_opt segment "segment_info") "segment_number") = Return (lit "1") /\
  non_nullish segment /\
  createVideoPrompt segment (default_options VUndef) = Throw e /\
  generateVideoFromSegment this segment VUndef []
  = (Throw e, [] ++ [Invoke segment (default_options VUndef)]).
Proof.
  intros this segment e.
  assert (createVideoPrompt segment (default_options VUndef) = Throw e) as Hprompt
    by (by vm_compute).
  split; [reflexivity|]. split; [by vm_compute|]. split; [done|]. split; [exact Hprompt|].
  apply (generateVideoFromSegment_prompt_failure this segment VUndef (lit "1") e []);
    [reflexivity|by vm_compute|done|exact Hprompt].
Defined.


Lemma requests_witness :
  let this := configured (fails_at 1) in
  initialized this = true /\
  Forall non_nullish three_segments /\
  exists b d,
    generateVideosForAllSegments this three_segments (VObj []) [] = (Return b, [] ++ d) /\
    posts_to (lit "/fast") d /\
    (successCount b <= length (posts d) <= length three_segments)%nat.
Proof.
  split; [reflexivity|]. split; [apply three_segments_objects|].
  apply (generateVideosForAllSegments_requests (configured (fails_at 1))
           three_segments (VObj []) []);
    [reflexivity|apply three_segments_objects].
Defined.

Lemma timers_witness :
  let this := configured (fails_at 1) in
  let outs := adapter_outcomes this (VObj []) (length three_segments) 0 three_segments [] in
  initialized this = true /\
  Forall non_nullish three_segments /\
  exists b t',
    generateVideosForAllSegments this three_segments (VObj []) [] = (Return b, t') /\
    timers t'
    = timers ([] : list (event Z))
      ++ replicate (length (successes (take (length three_segments - 1) outs)))
                     1000%nat.
Proof.
  split; [reflexivity|]. split; [apply three_segments_objects|].
  apply (generateVideosForAllSegments_timers (configured (fails_at 1))
           three_segments (VObj []) []);
    [reflexivity|apply three_segments_objects].
Defined.

Lemma bookkeeping_witness :
  let this := configured (fails_at 1) in
  initialized this = true /\
  Forall non_nullish three_segments /\
  exists b t',
    generateVideosForAllSegments this three_segments (VObj []) [] = (Return b, t') /\
    (successCount b + failureCount b = totalSegments b)%nat /\
    (errors b = None <-> failureCount b = 0%nat) /\
    (forall errs, errors b = Some errs ->
       length errs = failureCount b /\
       StronglySorted lt (segmentIndex <$> errs) /\
       forall x, x ∈ errs ->
         (1 <= segmentIndex x <= length three_segments)%nat /\
         exists segmentNumber,
           videos b !! (segmentIndex x - 1)%nat = Some (Failed segmentNumber (error x))) /\
    (forall i segmentNumber m,
       videos b !! i = Some (Failed segmentNumber m) ->
       exists errs, errors b = Some errs /\
         {| segmentIndex := i + 1; error := m |} ∈ errs).
Proof.
  split; [reflexivity|]. split; [apply three_segments_objects|].
  apply (generateVideosForAllSegments_bookkeeping (configured (fails_at 1))
           three_segments (VObj []) []);
    [reflexivity|apply three_segments_objects].
Defined.


Lemma refuses_witness :
  let falaiService := configured always_ready in
  let empty := request_body [] (videoOptions "8s" true) in
  let hollow := request_body [VObj []] (videoOptions "8s" true) in
  non_nullish empty /\
  generate_videos_falai falaiService empty []
  = (Return {| statusCode := 400;
               body := Refused (lit "Invalid request")
                 (lit "segments array is required and must not be empty") |}, []) /\
  non_nullish hollow /\
  Exists (fun s => invalid_structure s = true) [VObj [] : value Z] /\
  generate_videos_falai falaiService hollow []
  = (Return {| statusCode := 400;
               body := Refused (lit "Invalid segment structure")
                 (lit "Each segment must have action_timeline.dialogue or character_description") |},
     []).
Proof.
  intros falaiService empty hollow.
  assert (non_nullish empty) as Hempty by done.
  assert (non_nullish hollow) as Hhollow by done.
  assert (Exists (fun s => invalid_structure s = true) [VObj [] : value Z]) as Hinvalid
    by (by constructor).
  split; [exact Hempty|]. split.
  { apply (proj1 (generate_videos_falai_refuses falaiService empty [] Hempty)).
    intros x l. done. }
  split; [exact Hhollow|]. split; [exact Hinvalid|].
  apply (proj2 (generate_videos_falai_refuses falaiService hollow [] Hhollow) [VObj []]);
    [reflexivity|by repeat constructor|exact Hinvalid].
Defined.

Lemma null_segment_witness :
  let falaiService := configured always_ready in
  let req_body := request_body [plain_segment 1 "Hi there"; VNull] (videoOptions "8s" true) in
  non_nullish req_body /\
  prop_opt req_body "segments" = VArr [plain_segment 1 "Hi there"; VNull] /\
  Exists (fun s => nullish s = true) [plain_segment 1 "Hi there"; VNull] /\
  exists m,
    generate_videos_falai falaiService req_body []
    = (Return {| statusCode := 500;
                 body := Refused (lit "Video generation failed") m |}, []).
Proof.
  intros falaiService req_body.
  assert (Exists (fun s => nullish s = true) [plain_segment 1 "Hi there"; VNull]) as Hnull
    by (right; by left).
  split; [done|]. split; [reflexivity|]. split; [exact Hnull|].
  apply (generate_videos_falai_null_segment falaiService req_body
           [plain_segment 1 "Hi there"; VNull] []); [done|reflexivity|exact Hnull].
Defined.

Lemma answers_200_witness :
  let falaiService := configured (fails_at 1) in
  let req_body := request_body three_segments (videoOptions "8s" true) in
  initialized falaiService = true /\
  non_nullish req_body /\
  prop_opt req_body "segments" = VArr three_segments /\
  three_segments <> [] /\
  Forall (fun s => non_nullish s /\ invalid_structure s = false) three_segments /\
  prop_opt req_body "options" <> VNull /\
  exists b t',
    generate_videos_falai falaiService req_body []
    = (Return {| statusCode := 200; body := Videos b |}, t') /\
    length (videos b) = length three_segments /\
    invoked t' = invoked ([] : list (event Z)) ++ three_segments.
Proof.
  intros falaiService req_body.
  split; [reflexivity|]. split; [done|]. split; [reflexivity|]. split; [done|].
  split; [apply three_segments_valid|]. split; [done|].
  apply (generate_videos_falai_answers_200 falaiService req_body three_segments []);
    [reflexivity|done|reflexivity|done|apply three_segments_valid|done].
Defined.

Lemma not_initialized_witness :
  let falaiService := new_FalAIService ∅ always_ready in
  let req_body := request_body three_segments (videoOptions "8s" true) in
  initialized falaiService = false /\
  non_nullish req_body /\
  prop_opt req_body "segments" = VArr three_segments /\
  three_segments <> [] /\
  Forall (fun s => non_nullish s /\ invalid_structure s = false) three_segments /\
  prop_opt req_body "options" <> VNull /\
  generate_videos_falai falaiService req_body []
  = (Return {| statusCode := 500;
               body := Refused (lit "Video generation failed")
                         (lit "FalAI service not initialized") |}, []).
Proof.
  intros falaiService req_body.
  split; [reflexivity|]. split; [done|]. split; [reflexivity|]. split; [done|].
  split; [apply three_segments_valid|]. split; [done|].
  apply (generate_videos_falai_not_initialized falaiService req_body three_segments []);
    [reflexivity|done|reflexivity|done|apply three_segments_valid|done].
Defined.


(** The scenario of the estimate: three segments at 6 seconds without
    audio, the second call answered 429; the client showed $3.60, the
    server reports 2.40 for the two calls that succeeded. *)
Example estimate_and_total :
  getCostDisplay (lit "falai") 3 (lit "6s") false
  = lit "$3.60 (6s " ++ times_sign ++ lit " $0.2/s " ++ times_sign ++ lit " 3 segments)" /\
  exists b t,
    generate_videos_falai (configured (fails_at 1))
      (request_body three_segments (videoOptions "6s" false)) []
    = (Return {| statusCode := 200; body := Videos b |}, t) /\
    successCount b = 2%nat /\ (totalCost b == 2.4)%Q.
Proof. split; [by vm_compute|]. eexists _, _. split; [by vm_compute|]. by vm_compute. Qed.

Lemma served_health_witness :
  let env : gmap string string := {[ "OPENAI_API_KEY"%string := "sk-test"%string ]} in
  validateEnvironment_errors env = [] /\
  openai (health_apis (api_health env true)) = true.
Proof.
  intros env. split; [reflexivity|].
  apply (served_health_has_openai env true). reflexivity.
Defined.

Lemma translation_witness :
  let this := configured (fails_at 0) in
  let segment := plain_segment 1 "Hi there" in
  let data : value Z := VObj [ (lit "error", VStr (lit "slow down")) ] in
  initialized this = true /\
  to_string (prop_opt (prop_opt segment "segment_info") "segment_number") = Return (lit "1") /\
  exists prompt body,
    createVideoPrompt segment (default_options (VObj [])) = Return prompt /\
    requestData prompt (default_options (VObj [])) = Return body /\
    axiosInstance this (length (posts ([] : list (event Z)))) (lit "/fast") body
    = Rejected (lit "Request failed with status code 429") (Some (lit "ERR_BAD_REQUEST"))
        true (Some (429%N, data)) /\
    generateVideoFromSegment this segment (VObj []) []
    = (Throw (Error (lit "Rate limit exceeded. Please wait and try again")),
       [] ++ [Invoke segment (default_options (VObj [])); HttpPost (lit "/fast") body]).
Proof.
  intros this segment data.
  assert (to_string (prop_opt (prop_opt segment "segment_info") "segment_number")
          = Return (lit "1")) as Hlabel by (by vm_compute).
  destruct (createVideoPrompt segment (default_options (VObj []))) as [prompt|e0] eqn:Hprompt;
    [|by vm_compute in Hprompt].
  destruct (requestData prompt (default_options (VObj []))) as [body|e0] eqn:Hbody;
    [|by vm_compute in Hbody].
  assert (axiosInstance this (length (posts ([] : list (event Z)))) (lit "/fast") body
          = Rejected (lit "Request failed with status code 429")
              (Some (lit "ERR_BAD_REQUEST")) true (Some (429%N, data))) as Hpost
    by reflexivity.
  split; [reflexivity|]. split; [exact Hlabel|]. exists prompt, body.
  split; [reflexivity|]. split; [exact Hbody|]. split; [exact Hpost|].
  destruct (generateVideoFromSegment_translation this segment (VObj []) body (lit "1")
              prompt _ _ _ _ [] eq_refl Hlabel Hprompt Hbody Hpost)
    as (e & He & _ & _ & H429 & _).
  by rewrite He, (H429 eq_refl).
Defined.

Lemma opening_witness :
  createVideoPrompt (VObj [] : value Z) VUndef = Return default_prompt /\
  exists rest, default_prompt = lit "UGC style video:" ++ rest.
Proof.
  assert (createVideoPrompt (VObj [] : value Z) VUndef = Return default_prompt) as Hrun
    by (vm_compute; reflexivity).
  split; [exact Hrun|].
  exact (createVideoPrompt_opening (VObj []) VUndef default_prompt Hrun).
Defined.
